(** * kroctl: the push and inspect workflows

    A shallow embedding of [internal/command/push.go], of the inspect
    command and of [internal/oci/oci.go], with the properties of the
    file collector, the artifact packer, the repository connector and
    the inspect report.

    The commands are straight-line orchestrations of library calls.  The
    embedding keeps that shape: the file system is a snapshot that
    [os.Stat] and [filepath.Walk] read, every other library call (the
    local store, the registry client, the logger, the writers) is a
    [Call] answered by an arbitrary handler, and a run records the calls
    it made, with their replies, in a trace. *)

From Stdlib Require Import ZArith Ascii.
From stdpp Require Import base strings gmap list pretty.

Open Scope string_scope.
Open Scope list_scope.

(** ** Go values *)

(** Go's [error] values.  The two sentinels of [path/filepath] are
    compared by identity in [filepath.Walk], so they are constructors of
    their own; [wrapError] is what [fmt.Errorf] builds for a format
    with [%w]: the formatted message and the wrapped error. *)
Inductive error : Type :=
| SkipDir
| SkipAll
| errorString (s : string)
| wrapError (msg : string) (err : error).

(** [err.Error()] *)
Definition Error (e : error) : string :=
  match e with
  | SkipDir => "skip this directory"
  | SkipAll => "skip everything and stop the walk"
  | errorString s => s
  | wrapError msg _ => msg
  end.

(** [fmt.Errorf(prefix + "%w", err)], for the formats of this program, which
    all end in [": %w"]. *)
Definition Errorf_w (prefix : string) (err : error) : error :=
  wrapError (prefix +:+ Error err) err.


Definition isSkipDir (e : error) : bool :=
  match e with SkipDir => true | _ => false end.

Definition isSkipAll (e : error) : bool :=
  match e with SkipAll => true | _ => false end.

(** A Go result pair [(v, err)] of which the value is read only when
    [err == nil]. *)
Inductive result (A : Type) : Type :=
| Ok (v : A)
| Err (err : error).
Arguments Ok {A} v.
Arguments Err {A} err.

Definition isErr {A} (r : result A) : bool :=
  match r with Ok _ => false | Err _ => true end.

Definition isOk {A} (r : result A) : bool :=
  match r with Ok _ => true | Err _ => false end.

(** ** path/filepath on a Unix system *)

Definition IsPathSeparator (c : ascii) : bool := Ascii.eqb c "/"%char.

Definition isDot (c : ascii) : bool := Ascii.eqb c "."%char.

Fixpoint hasSeparatorOrDot (s : string) : bool :=
  match s with
  | EmptyString => false
  | String c rest => IsPathSeparator c || isDot c || hasSeparatorOrDot rest
  end.

Fixpoint hasSeparator (s : string) : bool :=
  match s with
  | EmptyString => false
  | String c rest => IsPathSeparator c || hasSeparator rest
  end.

(** [filepath.Ext]: the suffix that starts at the last dot of the last
    element of [path], empty when that element has no dot.  The Go loop
    scans from the end and stops at the first dot or separator it meets;
    here the first character with neither behind it decides. *)
Fixpoint Ext (path : string) : string :=
  match path with
  | EmptyString => ""
  | String c rest =>
      if hasSeparatorOrDot rest then Ext rest
      else if isDot c then path
      else ""
  end.

Fixpoint stripTrailingSlashes (path : string) : string :=
  match path with
  | EmptyString => ""
  | String c rest =>
      match stripTrailingSlashes rest with
      | EmptyString => if IsPathSeparator c then "" else String c ""
      | r => String c r
      end
  end.

Fixpoint lastElement (path : string) : string :=
  match path with
  | EmptyString => ""
  | String c rest =>
      if hasSeparator rest then lastElement rest
      else if IsPathSeparator c then rest
      else path
  end.

(** [filepath.Base] *)
Definition Base (path : string) : string :=
  if String.eqb path "" then "."
  else
    let path := lastElement (stripTrailingSlashes path) in
    if String.eqb path "" then "/" else path.

(** [strings.HasPrefix] *)
Definition HasPrefix (s prefix : string) : bool := String.prefix prefix s.

(** ** The file system *)

(** [fs.FileInfo], of which the program reads [IsDir] only. *)
Record FileInfo : Type := { IsDir : bool }.

(** What [filepath.Walk] finds at a path and below it: [os.Lstat] fails,
    or the path is not a directory, or it is a directory whose names
    cannot be read, or a directory with its entries.  An entry carries the
    path that Walk passes on for it, [Join(path, name)], in the order of
    [readDirNames]. *)
#[warnings="-register-all"] Inductive tree : Type :=
| lstatFailed (err : error)
| notDir
| unreadableDir (err : error)
| dir (entries : list (string * tree)).

(** A snapshot of the file system: what [os.Stat] answers for a name
    (symbolic links followed) and what Walk finds from a root (links not
    followed). *)
Record FileSystem : Type := {
  os_Stat : string -> result FileInfo;
  os_Lstat_tree : string -> tree;
}.

Definition lstatInfo (t : tree) : option FileInfo :=
  match t with
  | lstatFailed _ => None
  | notDir => Some {| IsDir := false |}
  | unreadableDir _ | dir _ => Some {| IsDir := true |}
  end.

Definition treeIsDir (t : tree) : bool :=
  match t with
  | unreadableDir _ | dir _ => true
  | _ => false
  end.

Section Walk.
(** The state that the callback closes over. *)
Context {S : Type}.

(** [filepath.WalkFunc], as a function of the captured state. *)
Definition WalkFunc : Type :=
  string -> option FileInfo -> option error -> S -> S * option error.

(** [filepath.walk], for a path whose lstat gave [t]; the first case is
    the call that the caller of [walk] makes when lstat failed. *)
Fixpoint walk (path : string) (t : tree) (walkFn : WalkFunc) (s : S)
  {struct t} : S * option error :=
  match t with
  | lstatFailed err => walkFn path None (Some err) s
  | notDir => walkFn path (lstatInfo t) None s
  | unreadableDir err => walkFn path (lstatInfo t) (Some err) s
  | dir entries =>
      let '(s1, err1) := walkFn path (lstatInfo t) None s in
      match err1 with
      | Some _ => (s1, err1)
      | None =>
          (fix range (names : list (string * tree)) (s : S)
             : S * option error :=
             match names with
             | [] => (s, None)
             | (filename, child) :: names' =>
                 let '(s', err) := walk filename child walkFn s in
                 match err with
                 | None => range names' s'
                 | Some e =>
                     match child with
                     | lstatFailed _ =>
                         if isSkipDir e then range names' s'
                         else (s', Some e)
                     | _ =>
                         if negb (treeIsDir child) || negb (isSkipDir e)
                         then (s', Some e)
                         else range names' s'
                     end
                 end
             end) entries s1
      end
  end.

(** [filepath.Walk] *)
Definition filepath_Walk (fs : FileSystem) (root : string)
  (fn : WalkFunc) (s : S) : S * option error :=
  let '(s', err) := walk root (os_Lstat_tree fs root) fn s in
  match err with
  | Some e => if isSkipDir e || isSkipAll e then (s', None) else (s', err)
  | None => (s', None)
  end.
End Walk.
Arguments WalkFunc S : clear implicits.

(** ** The file collector of RunPush (push.go, lines 54-79) *)

(** The panic value of a nil dereference; Walk never passes a nil info
    together with a nil error, so the callback never produces it. *)
Definition nilDereference : error :=
  errorString "runtime error: invalid memory address or nil pointer dereference".

Definition isYAML (path : string) : bool :=
  let ext := Ext path in
  String.eqb ext ".yaml" || String.eqb ext ".yml".

(** The closure passed to [filepath.Walk]; its state is [allFiles]. *)
Definition collectFn : WalkFunc (list string) :=
  fun path info err allFiles =>
    match err with
    | Some e => (allFiles, Some e)
    | None =>
        match info with
        | None => (allFiles, Some nilDereference)
        | Some info =>
            if negb (IsDir info) && isYAML path
            then (allFiles ++ [path], None)
            else (allFiles, None)
        end
    end.

(** The loop over [opts.Filenames]: the collected files, or the error
    that RunPush returns from inside the loop. *)
Fixpoint collectFiles (fs : FileSystem) (Filenames : list string)
  (allFiles : list string) : result (list string) :=
  match Filenames with
  | [] => Ok allFiles
  | filename :: rest =>
      match os_Stat fs filename with
      | Err err => Err (Errorf_w ("failed to access " +:+ filename +:+ ": ") err)
      | Ok info =>
          if IsDir info then
            match filepath_Walk fs filename collectFn allFiles with
            | (_, Some err) =>
                Err (Errorf_w ("failed to walk directory " +:+ filename +:+ ": ") err)
            | (allFiles, None) => collectFiles fs rest allFiles
            end
          else collectFiles fs rest (allFiles ++ [filename])
      end
  end.

(** ** OCI and registry data *)

(** [v1.Descriptor], with the fields that the commands read or that tell
    descriptors apart; [Annotations] is a Go map that may be nil. *)
Record Descriptor : Type := {
  MediaType : string;
  Digest : string;
  Size : Z;
  Annotations : option (gmap string string);
}.

(** [v1.Manifest], with the fields that RunInspect reads. *)
Record Manifest : Type := {
  Config : Descriptor;
  Layers : list Descriptor;
}.

Definition AnnotationCreated : string := "org.opencontainers.image.created".
Definition AnnotationTitle : string := "org.opencontainers.image.title".
Definition RFC3339 : string := "2006-01-02T15:04:05Z07:00".

(** oci.go, lines 12-17 *)
Definition ArtifactType : string := "application/vnd.kro.rgd.stack.v1".
Definition LayerMediaType : string := "application/vnd.kro.rgd.content.v1.yaml".

(** [registry.Reference]; its field [Reference] is the tag or digest. *)
Record registry_Reference : Type := {
  Registry : string;
  Repository : string;
  Reference : string;
}.

(** [Reference.Host] of oras-go: Docker Hub's registry has another host
    name, every other registry is its own host. *)
Definition Host (r : registry_Reference) : string :=
  if String.eqb (Registry r) "docker.io" then "registry-1.docker.io"
  else Registry r.

(** Handles of the library objects the commands hold. *)
Inductive CredStore : Type := dockerStore (id : nat).
Inductive Store : Type := fileStore (id : nat).
Inductive ReadCloser : Type := readCloser (id : nat).
Inductive Writer : Type := tabWriter (id : nat).

(** [auth.Client], with its credential function. *)
Record auth_Client : Type := { Credential : CredStore }.

(** [remote.Repository]; [Repository_Reference] is its field [Reference]. *)
Record remote_Repository : Type := {
  Repository_Reference : registry_Reference;
  PlainHTTP : bool;
  Client : option auth_Client;
}.

(** [time.Time]: an instant and the offset of its zone. *)
Record Time : Type := { unixSec : Z; zoneOffset : Z }.

(** A value passed to the structured logger. *)
Inductive any : Type :=
| anyString (s : string)
| anyInt (n : nat).

Inductive PackManifestVersion : Type :=
| PackManifestVersion1_0
| PackManifestVersion1_1.

(** [oras.PackManifestOptions] *)
Record PackManifestOptions : Type := { PackLayers : list Descriptor }.

(** ** Library calls *)

(** The calls that the commands make on their collaborators, indexed by
    the type of what comes back.  [ctx] is passed through unchanged and
    is left out. *)
Inductive Call : Type -> Type :=
| Logger_Info (msg : string) (args : list (string * any)) : Call unit
| Logger_Debug (msg : string) (args : list (string * any)) : Call unit
| cli_Printf (text : string) : Call unit
| file_New (workingDir : string) : Call (result Store)
| Store_Close (store : Store) : Call (option error)
| Store_Add (store : Store) (name mediaType path : string)
  : Call (result Descriptor)
| oras_PackManifest (store : Store) (version : PackManifestVersion)
    (artifactType : string) (opts : PackManifestOptions)
  : Call (result Descriptor)
| Store_Tag (store : Store) (desc : Descriptor) (reference : string)
  : Call (option error)
| registry_ParseReference (reference : string) : Call (result registry_Reference)
| credentials_NewStoreFromDocker : Call (result CredStore)
| oras_Copy (src : Store) (srcRef : string) (dst : remote_Repository)
    (dstRef : string) : Call (result Descriptor)
| Repository_FetchReference (repo : remote_Repository) (reference : string)
  : Call (result (Descriptor * ReadCloser))
| ReadCloser_Close (rc : ReadCloser) : Call (option error)
| io_ReadAll (rc : ReadCloser) : Call (result string)
| json_Unmarshal (data : string) : Call (result Manifest)
| time_Parse (layout value : string) : Call (result Time)
| Time_Format (t : Time) (layout : string) : Call string
| tabwriter_NewWriter (minwidth tabwidth padding : Z) (padchar : ascii)
    (flags : Z) : Call Writer
| fmt_Fprintf (w : Writer) (text : string) : Call unit
| Writer_Flush (w : Writer) : Call (option error).

(** What a call is, without its arguments. *)
Inductive kind : Type :=
| KLog | KPrintf | KNewStore | KCloseStore | KAdd | KPack | KTag
| KParseReference | KCredentials | KCopy | KFetch | KCloseReader | KReadAll
| KUnmarshal | KTimeParse | KTimeFormat | KNewWriter | KFprintf | KFlush.

#[global] Instance kind_eq_dec : EqDecision kind.
Proof. solve_decision. Defined.

Definition kind_of {X} (c : Call X) : kind :=
  match c with
  | Logger_Info _ _ | Logger_Debug _ _ => KLog
  | cli_Printf _ => KPrintf
  | file_New _ => KNewStore
  | Store_Close _ => KCloseStore
  | Store_Add _ _ _ _ => KAdd
  | oras_PackManifest _ _ _ _ => KPack
  | Store_Tag _ _ _ => KTag
  | registry_ParseReference _ => KParseReference
  | credentials_NewStoreFromDocker => KCredentials
  | oras_Copy _ _ _ _ => KCopy
  | Repository_FetchReference _ _ => KFetch
  | ReadCloser_Close _ => KCloseReader
  | io_ReadAll _ => KReadAll
  | json_Unmarshal _ => KUnmarshal
  | time_Parse _ _ => KTimeParse
  | Time_Format _ _ => KTimeFormat
  | tabwriter_NewWriter _ _ _ _ _ => KNewWriter
  | fmt_Fprintf _ _ => KFprintf
  | Writer_Flush _ => KFlush
  end.

(** ** Programs over the calls *)

(** A command is a tree of calls: it returns, or makes a call and goes on
    with the reply. *)
Inductive prog (R : Type) : Type :=
| Ret (r : R)
| Vis {X : Type} (c : Call X) (k : X -> prog R).
Arguments Ret {R} r.
Arguments Vis {R X} c k.

Fixpoint bind {A B} (p : prog A) (f : A -> prog B) : prog B :=
  match p with
  | Ret a => f a
  | Vis c k => Vis c (fun x => bind (k x) f)
  end.

Definition call {X} (c : Call X) : prog X := Vis c Ret.

#[global] Instance prog_ret : MRet prog := @Ret.
#[global] Instance prog_bind : MBind prog := fun A B f p => bind p f.

(** [defer cleanup] in front of [body]: the cleanup runs when the body has
    returned, whatever it returns. *)
Definition defer {R X} (cleanup : prog X) (body : prog R) : prog R :=
  r ← body; cleanup;; mret r.

(** One call of a run, with its reply. *)
Record entry : Type := Entry {
  entry_type : Type;
  entry_call : Call entry_type;
  entry_reply : entry_type;
}.
Arguments Entry {_} _ _.

Definition ekind (e : entry) : kind := kind_of (entry_call e).

Definition trace : Type := list entry.

Definition kinds (tr : trace) : list kind := ekind <$> tr.

(** The collaborators: a handler answers every call from a state of its
    own (the registry, the store, the clock). *)
Definition handler (W : Type) : Type := forall X, Call X -> W -> X * W.

(** Running a command against a handler: what it returns, the handler's
    state afterwards, and the calls made, in order. *)
Fixpoint run {W R} (h : handler W) (p : prog R) (w : W) : R * W * trace :=
  match p with
  | Ret r => (r, w, [])
  | Vis c k =>
      let '(x, w1) := h _ c w in
      let '(r, w2, tr) := run h (k x) w1 in
      (r, w2, Entry c x :: tr)
  end.

Definition result_of {W R} (x : R * W * trace) : R := x.1.1.
Definition trace_of {W R} (x : R * W * trace) : trace := x.2.

(** ** internal/oci/oci.go *)

Definition set_PlainHTTP (repo : remote_Repository) (b : bool)
  : remote_Repository :=
  {| Repository_Reference := Repository_Reference repo;
     PlainHTTP := b;
     Client := Client repo |}.

Definition set_Client (repo : remote_Repository) (c : auth_Client)
  : remote_Repository :=
  {| Repository_Reference := Repository_Reference repo;
     PlainHTTP := PlainHTTP repo;
     Client := Some c |}.

(** [remote.NewRepository] of oras-go: the reference is parsed, and the
    repository returned has that reference and zero values elsewhere. *)
Definition remote_NewRepository (reference : string)
  : prog (result remote_Repository) :=
  r ← call (registry_ParseReference reference);
  match r with
  | Err err => mret (Err err)
  | Ok ref =>
      mret (Ok {| Repository_Reference := ref;
                  PlainHTTP := false;
                  Client := None |})
  end.

(** oci.go, lines 21-47 *)
Definition SetupRepository (reference : string)
  : prog (result remote_Repository) :=
  r ← remote_NewRepository reference;
  match r with
  | Err err =>
      mret (Err (Errorf_w ("invalid reference " +:+ reference +:+ ": ") err))
  | Ok repo =>
      let host := Host (Repository_Reference repo) in
      let repo :=
        if HasPrefix host "localhost:" ||
           HasPrefix host "127.0.0.1:" ||
           HasPrefix host "::1:"
        then set_PlainHTTP repo true
        else repo in
      r ← call credentials_NewStoreFromDocker;
      match r with
      | Err err =>
          mret (Err (Errorf_w "failed to create credential store: " err))
      | Ok credStore =>
          mret (Ok (set_Client repo {| Credential := credStore |}))
      end
  end.

(** ** internal/command/push.go *)

Definition nl : string := String (ascii_of_nat 10) "".
Definition tab : string := String (ascii_of_nat 9) "".

Record PushOptions : Type := {
  Filenames : list string;
  Push_Reference : string;
}.

(** The loop that adds the files to the store (lines 97-107): the layers,
    or the error that RunPush returns from inside the loop. *)
Fixpoint stageFiles (store : Store) (allFiles : list string)
  (layers : list Descriptor) : prog (result (list Descriptor)) :=
  match allFiles with
  | [] => mret (Ok layers)
  | file :: rest =>
      r ← call (Store_Add store (Base file) LayerMediaType file);
      match r with
      | Err err =>
          mret (Err (Errorf_w ("failed to add " +:+ file +:+ " to store: ") err))
      | Ok desc =>
          call (Logger_Debug "Added file to artifact"
                  [("file", anyString (Base file));
                   ("digest", anyString (Digest desc))]);;
          stageFiles store rest (layers ++ [desc])
      end
  end.

(** Lines 109-142: packing, tagging and pushing the staged layers. *)
Definition pushLayers (opts : PushOptions) (store : Store)
  (allFiles : list string) (layers : list Descriptor) : prog (option error) :=
  let packOpts := {| PackLayers := layers |} in
  r ← call (oras_PackManifest store PackManifestVersion1_1 ArtifactType packOpts);
  match r with
  | Err err => mret (Some (Errorf_w "failed to pack manifest: " err))
  | Ok manifestDesc =>
      r ← call (Store_Tag store manifestDesc (Push_Reference opts));
      match r with
      | Some err => mret (Some (Errorf_w "failed to tag manifest: " err))
      | None =>
          r ← SetupRepository (Push_Reference opts);
          match r with
          | Err err => mret (Some err)
          | Ok repo =>
              (if PlainHTTP repo
               then call (Logger_Debug "Using plain HTTP for local registry"
                            [("host", anyString (Host (Repository_Reference repo)))])
               else mret ());;
              call (Logger_Info "Pushing artifact to registry"
                      [("reference", anyString (Push_Reference opts))]);;
              r ← call (oras_Copy store (Push_Reference opts) repo
                           (Push_Reference opts));
              match r with
              | Err err => mret (Some (Errorf_w "failed to push artifact: " err))
              | Ok _ =>
                  call (cli_Printf ("Successfully pushed "
                          +:+ pretty (length allFiles)
                          +:+ " RGD file(s) to " +:+ Push_Reference opts +:+ nl));;
                  call (cli_Printf ("Digest: " +:+ Digest manifestDesc +:+ nl));;
                  mret None
              end
          end
      end
  end.

(** push.go, lines 49-143; [None] is the nil error. *)
Definition RunPush (fs : FileSystem) (opts : PushOptions) : prog (option error) :=
  if Nat.eqb (length (Filenames opts)) 0
  then mret (Some (errorString "no files specified, use -f to provide RGD files"))
  else
    match collectFiles fs (Filenames opts) [] with
    | Err err => mret (Some err)
    | Ok allFiles =>
        if Nat.eqb (length allFiles) 0
        then mret (Some (errorString "no YAML files found in specified paths"))
        else
          call (Logger_Info "Preparing to push RGD stack"
                  [("reference", anyString (Push_Reference opts));
                   ("files", anyInt (length allFiles))]);;
          r ← call (file_New "");
          match r with
          | Err err => mret (Some (Errorf_w "failed to create file store: " err))
          | Ok store =>
              defer (call (Store_Close store))
                (r ← stageFiles store allFiles [];
                 match r with
                 | Err err => mret (Some err)
                 | Ok layers => pushLayers opts store allFiles layers
                 end)
          end
    end.

(** ** The inspect command *)

Record InspectOptions : Type := { Inspect_Reference : string }.

(** Lines 113-120: the Created line, when the annotation is there and
    parses. *)
Definition printCreated (manifest : Manifest) : prog unit :=
  match Annotations (Config manifest) with
  | Some annotations =>
      match annotations !! AnnotationCreated with
      | Some created =>
          r ← call (time_Parse RFC3339 created);
          match r with
          | Ok t =>
              s ← call (Time_Format t RFC3339);
              call (cli_Printf ("Created:   " +:+ s +:+ nl))
          | Err _ => mret ()
          end
      | None => mret ()
      end
  | None => mret ()
  end.

(** Lines 133-138: the name shown for a layer. *)
Definition layerName (layer : Descriptor) : string :=
  let name := "unknown" in
  match Annotations layer with
  | Some annotations =>
      match annotations !! AnnotationTitle with
      | Some title => title
      | None => name
      end
  | None => name
  end.

(** Lines 132-141: one row per layer. *)
Fixpoint printLayers (w : Writer) (layers : list Descriptor) : prog unit :=
  match layers with
  | [] => mret ()
  | layer :: rest =>
      call (fmt_Fprintf w (layerName layer +:+ tab +:+ Digest layer +:+ nl));;
      printLayers w rest
  end.

(** Lines 103-145: the report on a parsed manifest. *)
Definition report (repo : remote_Repository) (manifestDesc : Descriptor)
  (manifest : Manifest) : prog (option error) :=
  let artifactName := Repository (Repository_Reference repo) in
  let tag := Reference (Repository_Reference repo) in
  let artifactName :=
    if negb (String.eqb tag "") then artifactName +:+ ":" +:+ tag
    else artifactName in
  let registry := Host (Repository_Reference repo) in
  call (cli_Printf ("Artifact:  " +:+ artifactName +:+ nl));;
  call (cli_Printf ("Registry:  " +:+ registry +:+ nl));;
  call (cli_Printf ("Digest:    " +:+ Digest manifestDesc +:+ nl));;
  printCreated manifest;;
  if Nat.eqb (length (Layers manifest)) 0
  then
    call (cli_Printf (nl +:+ "No ResourceGraphDefinitions found in artifact" +:+ nl));;
    mret None
  else
    call (cli_Printf (nl +:+ "ResourceGraphDefinitions:" +:+ nl));;
    w ← call (tabwriter_NewWriter 0 0 2 " " 0);
    call (fmt_Fprintf w ("Name" +:+ tab +:+ "Digest" +:+ nl));;
    printLayers w (Layers manifest);;
    call (Writer_Flush w);;
    mret None.

(** RunInspect, lines 69-146 of the inspect command. *)
Definition RunInspect (opts : InspectOptions) : prog (option error) :=
  call (Logger_Info "Inspecting artifact"
          [("reference", anyString (Inspect_Reference opts))]);;
  r ← SetupRepository (Inspect_Reference opts);
  match r with
  | Err err => mret (Some err)
  | Ok repo =>
      (if PlainHTTP repo
       then call (Logger_Debug "Using plain HTTP for local registry"
                    [("host", anyString (Host (Repository_Reference repo)))])
       else mret ());;
      r ← call (Repository_FetchReference repo (Inspect_Reference opts));
      match r with
      | Err err => mret (Some (Errorf_w "failed to fetch manifest: " err))
      | Ok (manifestDesc, rc) =>
          defer (call (ReadCloser_Close rc))
            (call (Logger_Debug "Fetched manifest"
                     [("digest", anyString (Digest manifestDesc));
                      ("mediaType", anyString (MediaType manifestDesc))]);;
             r ← call (io_ReadAll rc);
             match r with
             | Err err => mret (Some (Errorf_w "failed to read manifest: " err))
             | Ok manifestBytes =>
                 r ← call (json_Unmarshal manifestBytes);
                 match r with
                 | Err err =>
                     mret (Some (Errorf_w "failed to parse manifest: " err))
                 | Ok manifest => report repo manifestDesc manifest
                 end
             end)
      end
  end.

(** ** What the properties are stated with *)

(** The paths of the entries at and below [path] that are not
    directories, in the order of the walk. *)
Fixpoint walkedFiles (path : string) (t : tree) : list string :=
  match t with
  | notDir => [path]
  | dir entries =>
      (fix range (names : list (string * tree)) : list string :=
         match names with
         | [] => []
         | (filename, child) :: names' =>
             walkedFiles filename child ++ range names'
         end) entries
  | lstatFailed _ | unreadableDir _ => []
  end.

(** Every entry at and below the root can be read. *)
Fixpoint readable (t : tree) : bool :=
  match t with
  | notDir => true
  | dir entries =>
      (fix range (names : list (string * tree)) : bool :=
         match names with
         | [] => true
         | (_, child) :: names' => readable child && range names'
         end) entries
  | lstatFailed _ | unreadableDir _ => false
  end.

(** The loop of [walk] over the names of a directory. *)
Definition walkEntries {S} (walkFn : WalkFunc S)
  : list (string * tree) -> S -> S * option error :=
  fix range (names : list (string * tree)) (s : S) : S * option error :=
    match names with
    | [] => (s, None)
    | (filename, child) :: names' =>
        let '(s', err) := walk filename child walkFn s in
        match err with
        | None => range names' s'
        | Some e =>
            match child with
            | lstatFailed _ =>
                if isSkipDir e then range names' s' else (s', Some e)
            | _ =>
                if negb (treeIsDir child) || negb (isSkipDir e)
                then (s', Some e)
                else range names' s'
            end
        end
    end.

Definition walkedEntries : list (string * tree) -> list string :=
  fix range (names : list (string * tree)) : list string :=
    match names with
    | [] => []
    | (filename, child) :: names' => walkedFiles filename child ++ range names'
    end.


Section TreeInduction.
Variable P : tree -> Prop.
Hypothesis P_lstatFailed : forall err, P (lstatFailed err).
Hypothesis P_notDir : P notDir.
Hypothesis P_unreadableDir : forall err, P (unreadableDir err).
Hypothesis P_dir :
  forall entries, Forall (fun entry => P entry.2) entries -> P (dir entries).

Fixpoint tree_entries_ind (t : tree) : P t :=
  match t with
  | lstatFailed err => P_lstatFailed err
  | notDir => P_notDir
  | unreadableDir err => P_unreadableDir err
  | dir entries =>
      P_dir entries
        ((fix range (names : list (string * tree))
            : Forall (fun entry => P entry.2) names :=
            match names with
            | [] => @List.Forall_nil _ _
            | entry :: names' =>
                @List.Forall_cons _ _ entry names' (tree_entries_ind entry.2) (range names')
            end) entries)
  end.
End TreeInduction.

Definition occurrences (p : string) (l : list string) : nat :=
  length (List.filter (String.eqb p) l).

(** The loopback hosts: [localhost], [127.0.0.1] or [::1], a colon, and
    what follows it. *)
Definition loopbackHost (host : string) : Prop :=
  exists port,
    host = "localhost:" +:+ port \/
    host = "127.0.0.1:" +:+ port \/
    host = "::1:" +:+ port.

(** The path of a file that was added to the store. *)
Definition stagedPath (e : entry) : option string :=
  match e with
  | Entry c x =>
      match c in Call X return X -> option string with
      | Store_Add _ _ _ path =>
          fun r => match r with Ok _ => Some path | Err _ => None end
      | _ => fun _ => None
      end x
  end.

(** An attempt to add a file to the store that failed. *)
Definition stagingFailed (e : entry) : bool :=
  match e with
  | Entry c x =>
      match c in Call X return X -> bool with
      | Store_Add _ _ _ _ => fun r => isErr r
      | _ => fun _ => false
      end x
  end.

(** The reference that a manifest was tagged with. *)
Definition taggedReference (e : entry) : option string :=
  match e with
  | Entry c _ =>
      match c with
      | Store_Tag _ _ reference => Some reference
      | _ => None
      end
  end.

(** The manifest that was parsed. *)
Definition parsedManifest (e : entry) : option Manifest :=
  match e with
  | Entry c x =>
      match c in Call X return X -> option Manifest with
      | json_Unmarshal _ =>
          fun r => match r with Ok manifest => Some manifest | Err _ => None end
      | _ => fun _ => None
      end x
  end.

(** What was printed for the user, and what was written to the table. *)
Definition printedText (e : entry) : option string :=
  match e with
  | Entry c _ =>
      match c with
      | cli_Printf text => Some text
      | _ => None
      end
  end.

Definition tableText (e : entry) : option string :=
  match e with
  | Entry c _ =>
      match c with
      | fmt_Fprintf _ text => Some text
      | _ => None
      end
  end.

Definition printed (tr : trace) : list string := omap printedText tr.
Definition table (tr : trace) : list string := omap tableText tr.

Definition noFilesSpecified : error :=
  errorString "no files specified, use -f to provide RGD files".
Definition noYAMLFilesFound : error :=
  errorString "no YAML files found in specified paths".

(** The creation timestamp of the manifest's config, when annotated. *)
Definition createdAnnotation (manifest : Manifest) : option string :=
  match Annotations (Config manifest) with
  | Some annotations => annotations !! AnnotationCreated
  | None => None
  end.

(** The title of a layer, when annotated. *)
Definition titleAnnotation (layer : Descriptor) : option string :=
  match Annotations layer with
  | Some annotations => annotations !! AnnotationTitle
  | None => None
  end.

(** The three lines that open every report. *)
Definition reportHeader (repo : remote_Repository) (manifestDesc : Descriptor)
  : list string :=
  let ref := Repository_Reference repo in
  ["Artifact:  " +:+
     (if negb (String.eqb (Reference ref) "")
      then Repository ref +:+ ":" +:+ Reference ref
      else Repository ref) +:+ nl;
   "Registry:  " +:+ Host ref +:+ nl;
   "Digest:    " +:+ Digest manifestDesc +:+ nl].

Definition noDefinitionsFound : string :=
  nl +:+ "No ResourceGraphDefinitions found in artifact" +:+ nl.

Definition definitionsHeading : string :=
  nl +:+ "ResourceGraphDefinitions:" +:+ nl.

Definition tableHeader : string := "Name" +:+ tab +:+ "Digest" +:+ nl.

(** The row of the table for a layer. *)
Definition rowOf (layer : Descriptor) : string :=
  layerName layer +:+ tab +:+ Digest layer +:+ nl.

(** The timestamp is optional: it is not there, or [time.Parse] rejects
    it whenever it is asked. *)
Definition createdMissingOrMalformed {W} (h : handler W) (manifest : Manifest)
  : Prop :=
  createdAnnotation manifest = None \/
  exists created,
    createdAnnotation manifest = Some created /\
    forall w, isErr (h _ (time_Parse RFC3339 created) w).1 = true.

(** ** A small world to run the commands in *)

Module Demo.

(** The working directory: two YAML files and a text file, a directory
    [rgds] with a sub-directory, an empty directory, a directory that
    cannot be read, and a file that cannot be opened. *)
Definition rgds : tree :=
  dir [("rgds/README.md", notDir);
       ("rgds/sub", dir [("rgds/sub/subnet.yml", notDir);
                         ("rgds/sub/values.json", notDir)]);
       ("rgds/vpc.yaml", notDir)].

Definition isFile (name : string) : bool :=
  bool_decide (name ∈ ["stack.yaml"; "rgds/vpc.yaml"; "notes.txt"; "secret.yaml"]).

Definition isDirectory (name : string) : bool :=
  bool_decide (name ∈ ["rgds"; "empty"; "locked"]).

Definition noSuchFile (op name : string) : error :=
  errorString (op +:+ " " +:+ name +:+ ": no such file or directory").

Definition permissionDenied (name : string) : error :=
  errorString ("open " +:+ name +:+ ": permission denied").

Definition fs : FileSystem :=
  {| os_Stat name :=
       if isFile name then Ok {| IsDir := false |}
       else if isDirectory name then Ok {| IsDir := true |}
       else Err (noSuchFile "stat" name);
     os_Lstat_tree name :=
       if isFile name then notDir
       else if String.eqb name "rgds" then rgds
       else if String.eqb name "empty" then dir []
       else if String.eqb name "locked" then unreadableDir (permissionDenied name)
       else lstatFailed (noSuchFile "lstat" name) |}.

Definition layerOf (name mediaType : string) : Descriptor :=
  {| MediaType := mediaType;
     Digest := "sha256:" +:+ name;
     Size := 42;
     Annotations := Some {[ AnnotationTitle := name ]} |}.

Definition manifestDesc : Descriptor :=
  {| MediaType := "application/vnd.oci.image.manifest.v1+json";
     Digest := "sha256:manifest";
     Size := 512;
     Annotations := None |}.

Definition untitled : Descriptor :=
  {| MediaType := LayerMediaType;
     Digest := "sha256:untitled";
     Size := 7;
     Annotations := None |}.

Definition config (annotations : option (gmap string string)) : Descriptor :=
  {| MediaType := "application/vnd.oci.empty.v1+json";
     Digest := "sha256:config";
     Size := 2;
     Annotations := annotations |}.

(** The references the registry client parses. *)
Definition parse (reference : string) : result registry_Reference :=
  if String.eqb reference "localhost:5001/stack:v1"
  then Ok {| Registry := "localhost:5001"; Repository := "stack"; Reference := "v1" |}
  else if String.eqb reference "ghcr.io/acme/stack:v1"
  then Ok {| Registry := "ghcr.io"; Repository := "acme/stack"; Reference := "v1" |}
  else if String.eqb reference "ghcr.io/acme/empty:v1"
  then Ok {| Registry := "ghcr.io"; Repository := "acme/empty"; Reference := "v1" |}
  else if String.eqb reference "ghcr.io/acme/undated:v1"
  then Ok {| Registry := "ghcr.io"; Repository := "acme/undated"; Reference := "v1" |}
  else Err (errorString "invalid reference: missing registry or repository").

(** The manifests in the registry: one with a dated config and two layers,
    the second without annotations; one without layers; one whose
    timestamp is no timestamp. *)
Definition stackManifest : Manifest :=
  {| Config := config (Some {[ AnnotationCreated := "2025-01-02T03:04:05Z" ]});
     Layers := [layerOf "vpc.yaml" LayerMediaType; untitled] |}.

Definition emptyManifest : Manifest :=
  {| Config := config (Some {[ AnnotationCreated := "2025-01-02T03:04:05Z" ]});
     Layers := [] |}.

Definition undatedManifest : Manifest :=
  {| Config := config (Some {[ AnnotationCreated := "yesterday" ]});
     Layers := [untitled] |}.

(** The parser of manifests, by the bytes that were read; the demo
    registry serves the reference itself as those bytes. *)
Definition unmarshal (data : string) : result Manifest :=
  if String.eqb data "ghcr.io/acme/stack:v1" then Ok stackManifest
  else if String.eqb data "ghcr.io/acme/empty:v1" then Ok emptyManifest
  else if String.eqb data "ghcr.io/acme/undated:v1" then Ok undatedManifest
  else if String.eqb data "localhost:5001/stack:v1"
  then Ok {| Config := config None; Layers := [layerOf "stack.yaml" LayerMediaType] |}
  else Err (errorString "unexpected end of JSON input").

(** The state of the collaborators: the reference fetched last. *)
Definition world : Type := string.

Definition handle : handler world :=
  fun X (c : Call X) (w : world) =>
    match c in Call X return X * world with
    | Logger_Info _ _ | Logger_Debug _ _ | cli_Printf _ => ((), w)
    | file_New _ => (Ok (fileStore 0), w)
    | Store_Close _ => (None, w)
    | Store_Add _ name mediaType path =>
        if String.eqb path "secret.yaml" then (Err (permissionDenied path), w)
        else (Ok (layerOf name mediaType), w)
    | oras_PackManifest _ _ _ _ => (Ok manifestDesc, w)
    | Store_Tag _ _ _ => (None, w)
    | registry_ParseReference reference => (parse reference, w)
    | credentials_NewStoreFromDocker => (Ok (dockerStore 0), w)
    | oras_Copy _ _ _ _ => (Ok manifestDesc, w)
    | Repository_FetchReference _ reference =>
        (Ok (manifestDesc, readCloser 0), reference)
    | ReadCloser_Close _ => (None, w)
    | io_ReadAll _ => (Ok w, w)
    | json_Unmarshal data => (unmarshal data, w)
    | time_Parse _ value =>
        if String.eqb value "2025-01-02T03:04:05Z"
        then (Ok {| unixSec := 1735787045; zoneOffset := 0 |}, w)
        else (Err (errorString ("parsing time " +:+ value)), w)
    | Time_Format _ _ => ("2025-01-02T03:04:05Z", w)
    | tabwriter_NewWriter _ _ _ _ _ => (tabWriter 0, w)
    | fmt_Fprintf _ _ => ((), w)
    | Writer_Flush _ => (None, w)
    end.

(** Another working directory: [current] and [live.yaml] are symbolic
    links to a directory that holds [vpc.yaml].  [os.Stat] follows the
    links, also inside a path; [os.Lstat], with which Walk looks at its
    root, does not. *)
Definition isLink (name : string) : bool :=
  bool_decide (name ∈ ["current"; "live.yaml"]).

Definition isLinkedFile (name : string) : bool :=
  bool_decide (name ∈ ["current/vpc.yaml"; "live.yaml/vpc.yaml"]).

Definition linked : FileSystem :=
  {| os_Stat name :=
       if isLink name then Ok {| IsDir := true |}
       else if isLinkedFile name then Ok {| IsDir := false |}
       else Err (noSuchFile "stat" name);
     os_Lstat_tree name :=
       if isLink name then notDir
       else if isLinkedFile name then notDir
       else lstatFailed (noSuchFile "lstat" name) |}.

(** The invocations that are run below. *)
Definition push (filenames : list string) : PushOptions :=
  {| Filenames := filenames; Push_Reference := "localhost:5001/stack:v1" |}.

Definition inspect (reference : string) : InspectOptions :=
  {| Inspect_Reference := reference |}.

Definition tagEntry : entry :=
  Entry (Store_Tag (fileStore 0) manifestDesc "localhost:5001/stack:v1") None.

Definition parsedEntry (reference : string) (manifest : Manifest) : entry :=
  Entry (json_Unmarshal reference) (Ok manifest).

End Demo.

(** ** More of what a trace shows *)

(** The store that [file.New] returned, and the store that was closed. *)
Definition createdStore (e : entry) : option Store :=
  match e with
  | Entry c x =>
      match c in Call X return X -> option Store with
      | file_New _ => fun r => match r with Ok store => Some store | Err _ => None end
      | _ => fun _ => None
      end x
  end.

Definition closedStore (e : entry) : option Store :=
  match e with
  | Entry c _ =>
      match c with
      | Store_Close store => Some store
      | _ => None
      end
  end.

(** The arguments of an Add, and the descriptor it returned. *)
Definition addCall (e : entry) : option (Store * string * string * string) :=
  match e with
  | Entry c _ =>
      match c with
      | Store_Add store name mediaType path => Some (store, name, mediaType, path)
      | _ => None
      end
  end.

Definition addedLayer (e : entry) : option Descriptor :=
  match e with
  | Entry c x =>
      match c in Call X return X -> option Descriptor with
      | Store_Add _ _ _ _ =>
          fun r => match r with Ok desc => Some desc | Err _ => None end
      | _ => fun _ => None
      end x
  end.

(** The arguments of a PackManifest, and the manifest descriptor it
    returned. *)
Definition packCall (e : entry)
  : option (Store * PackManifestVersion * string * list Descriptor) :=
  match e with
  | Entry c _ =>
      match c with
      | oras_PackManifest store version artifactType opts =>
          Some (store, version, artifactType, PackLayers opts)
      | _ => None
      end
  end.

Definition packedManifest (e : entry) : option Descriptor :=
  match e with
  | Entry c x =>
      match c in Call X return X -> option Descriptor with
      | oras_PackManifest _ _ _ _ =>
          fun r => match r with Ok desc => Some desc | Err _ => None end
      | _ => fun _ => None
      end x
  end.

(** A Tag, with what it returned. *)
Definition tagCall (e : entry)
  : option (Store * Descriptor * string * option error) :=
  match e with
  | Entry c x =>
      match c in Call X return X -> option (Store * Descriptor * string * option error) with
      | Store_Tag store desc reference => fun r => Some (store, desc, reference, r)
      | _ => fun _ => None
      end x
  end.

(** The arguments of a Copy, and whether a Copy went through. *)
Definition copyCall (e : entry)
  : option (Store * string * remote_Repository * string) :=
  match e with
  | Entry c _ =>
      match c with
      | oras_Copy src srcRef dst dstRef => Some (src, srcRef, dst, dstRef)
      | _ => None
      end
  end.

Definition copied (e : entry) : bool :=
  match e with
  | Entry c x =>
      match c in Call X return X -> bool with
      | oras_Copy _ _ _ _ => fun r => isOk r
      | _ => fun _ => false
      end x
  end.

(** The reader that a fetch returned, and the reader that was closed. *)
Definition fetchedReader (e : entry) : option ReadCloser :=
  match e with
  | Entry c x =>
      match c in Call X return X -> option ReadCloser with
      | Repository_FetchReference _ _ =>
          fun r => match r with Ok (_, rc) => Some rc | Err _ => None end
      | _ => fun _ => None
      end x
  end.

Definition closedReader (e : entry) : option ReadCloser :=
  match e with
  | Entry c _ =>
      match c with
      | ReadCloser_Close rc => Some rc
      | _ => None
      end
  end.




(** The two lines that a successful push prints. *)
Definition pushSummary (allFiles : list string) (reference : string)
  (manifestDesc : Descriptor) : list string :=
  ["Successfully pushed " +:+ pretty (length allFiles)
     +:+ " RGD file(s) to " +:+ reference +:+ nl;
   "Digest: " +:+ Digest manifestDesc +:+ nl].

(** The calls that staging and pushing are made of, and the calls that
    RunInspect makes before its report and in it. *)
Definition stagingKinds : list kind := [KAdd; KLog].
Definition pushingKinds : list kind :=
  [KPack; KTag; KParseReference; KCredentials; KLog; KCopy; KPrintf].
Definition fetchingKinds : list kind :=
  [KLog; KParseReference; KCredentials; KFetch; KReadAll; KUnmarshal].
Definition reportingKinds : list kind :=
  [KPrintf; KTimeParse; KTimeFormat; KNewWriter; KFprintf; KFlush].

(** All that RunInspect ever calls. *)
Definition inspectKinds : list kind :=
  fetchingKinds ++ reportingKinds ++ [KCloseReader].

(** The error of the first entry, in the order of the walk, that cannot
    be read. *)
Fixpoint firstError (t : tree) : option error :=
  match t with
  | lstatFailed err | unreadableDir err => Some err
  | notDir => None
  | dir entries =>
      (fix range (names : list (string * tree)) : option error :=
         match names with
         | [] => None
         | (_, child) :: names' =>
             match firstError child with
             | Some err => Some err
             | None => range names'
             end
         end) entries
  end.

Definition firstErrorEntries : list (string * tree) -> option error :=
  fix range (names : list (string * tree)) : option error :=
    match names with
    | [] => None
    | (_, child) :: names' =>
        match firstError child with
        | Some err => Some err
        | None => range names'
        end
    end.

(** ** The commands, as cobra runs them *)

(** [cobra.ExactArgs] *)
Definition ExactArgs (n : nat) (args : list string) : option error :=
  if negb (Nat.eqb (length args) n)
  then Some (errorString ("accepts " +:+ pretty n +:+ " arg(s), received "
                            +:+ pretty (length args)))
  else None.

(** What the program sets of a [cobra.Command], apart from the help
    texts: the check of the positional arguments and what runs on them.
    [RunE] gives no program where the Go closure panics. *)
Record Command : Type := {
  Use : string;
  Args : list string -> option error;
  RunE : list string -> option (prog (option error));
}.

(** push.go, lines 22-47; [filenames] is what the flag [-f] was parsed
    to. *)
Definition NewPushCommand (fs : FileSystem) (filenames : list string) : Command :=
  {| Use := "push <reference>";
     Args := ExactArgs 1;
     RunE := fun args =>
       match args !! 0 with
       | Some reference =>
           Some (RunPush fs {| Filenames := filenames; Push_Reference := reference |})
       | None => None
       end |}.

(** Lines 21-42 of the inspect command. *)
Definition NewInspectCommand : Command :=
  {| Use := "inspect <reference>";
     Args := ExactArgs 1;
     RunE := fun args =>
       match args !! 0 with
       | Some reference => Some (RunInspect {| Inspect_Reference := reference |})
       | None => None
       end |}.

(** ** path/filepath *)

Example Ext_examples :
  Ext "rgds/vpc.yaml" = ".yaml" /\ Ext "a.b/c" = "" /\ Ext "x.tar.yml" = ".yml" /\
  Ext ".yaml" = ".yaml" /\ Ext "dir.yaml/" = "" /\ Ext "" = "".
Proof. repeat split. Qed.

Example Base_examples :
  Base "rgds/vpc.yaml" = "vpc.yaml" /\ Base "a/b/" = "b" /\ Base "" = "." /\
  Base "///" = "/" /\ Base "x" = "x".
Proof. repeat split. Qed.

(** ** The walk *)

Lemma walk_dir {S} (walkFn : WalkFunc S) path entries s :
  walk path (dir entries) walkFn s =
    let '(s1, err1) := walkFn path (Some {| IsDir := true |}) None s in
    match err1 with
    | Some _ => (s1, err1)
    | None => walkEntries walkFn entries s1
    end.
Proof. reflexivity. Qed.

Lemma walkedFiles_dir path entries :
  walkedFiles path (dir entries) = walkedEntries entries.
Proof. reflexivity. Qed.


(** The callback only ever appends to [allFiles]: a walk from any
    [allFiles] is the walk from the empty list, appended. *)
Lemma walk_collectFn_app t :
  forall path allFiles,
    walk path t collectFn allFiles =
      ((allFiles ++ (walk path t collectFn []).1), (walk path t collectFn []).2).
Proof.
  induction t as [err| |err|entries IH] using tree_entries_ind; intros path allFiles.
  - simpl. by rewrite app_nil_r.
  - simpl. destruct (isYAML path); simpl; by rewrite ?app_nil_r.
  - simpl. by rewrite app_nil_r.
  - rewrite !walk_dir. simpl.
    assert (Hloop : forall acc,
      walkEntries collectFn entries acc =
        (acc ++ (walkEntries collectFn entries []).1,
         (walkEntries collectFn entries []).2)).
    { induction IH as [|[filename child] names Hchild _ IHnames]; intros acc.
      - simpl. by rewrite app_nil_r.
      - simpl in Hchild. simpl.
        rewrite (Hchild filename acc).
        destruct (walk filename child collectFn []) as [l [e|]] eqn:Hw; simpl.
        + destruct child; simpl;
            repeat match goal with
            | |- context [if ?b then _ else _] => destruct b eqn:?; simpl
            end;
            rewrite ?app_nil_r; try done;
            rewrite (IHnames (acc ++ l)), (IHnames l); simpl;
            by rewrite app_assoc.
        + rewrite (IHnames (acc ++ l)), (IHnames l). simpl.
          by rewrite app_assoc. }
    apply Hloop.
Qed.


(** ** The file collector *)

Lemma filepath_Walk_collectFn_app fs root allFiles :
  filepath_Walk fs root collectFn allFiles =
    (allFiles ++ (filepath_Walk fs root collectFn []).1,
     (filepath_Walk fs root collectFn []).2).
Proof.
  unfold filepath_Walk.
  rewrite (walk_collectFn_app _ root allFiles).
  destruct (walk root (os_Lstat_tree fs root) collectFn []) as [l [e|]]; simpl;
    [destruct (isSkipDir e || isSkipAll e)|]; done.
Qed.

(** The loop only appends: collecting onto [allFiles] is collecting from
    the empty list, appended. *)
Lemma collectFiles_acc fs Filenames :
  forall allFiles,
    collectFiles fs Filenames allFiles =
      match collectFiles fs Filenames [] with
      | Ok files => Ok (allFiles ++ files)
      | Err err => Err err
      end.
Proof.
  induction Filenames as [|filename rest IH]; intros allFiles; simpl.
  - by rewrite app_nil_r.
  - destruct (os_Stat fs filename) as [info|err]; [|done].
    destruct (IsDir info).
    + rewrite (filepath_Walk_collectFn_app fs filename allFiles).
      destruct (filepath_Walk fs filename collectFn []) as [l [e|]]; simpl; [done|].
      rewrite (IH (allFiles ++ l)), (IH l).
      destruct (collectFiles fs rest []); [|done].
      by rewrite app_assoc.
    + rewrite (IH (allFiles ++ [filename])), (IH [filename]).
      destruct (collectFiles fs rest []); [|done].
      by rewrite app_assoc.
Qed.

Lemma collectFiles_app fs pre post :
  collectFiles fs (pre ++ post) [] =
    match collectFiles fs pre [] with
    | Ok before =>
        match collectFiles fs post [] with
        | Ok after => Ok (before ++ after)
        | Err err => Err err
        end
    | Err err => Err err
    end.
Proof.
  assert (H : forall allFiles,
    collectFiles fs (pre ++ post) allFiles =
      match collectFiles fs pre allFiles with
      | Ok before => collectFiles fs post before
      | Err err => Err err
      end).
  { induction pre as [|filename rest IH]; intros allFiles; simpl; [done|].
    destruct (os_Stat fs filename) as [info|err]; [|done].
    destruct (IsDir info); [|apply IH].
    destruct (filepath_Walk fs filename collectFn allFiles) as [l [e|]]; [done|].
    apply IH. }
  rewrite H. destruct (collectFiles fs pre []) as [before|err]; [|done].
  apply collectFiles_acc.
Qed.

(** A successful collection splits at every argument into what the
    arguments before it gave, what it gave itself, and what the arguments
    after it gave. *)
Lemma collectFiles_split fs pre a post files :
  collectFiles fs (pre ++ a :: post) [] = Ok files ->
  exists before part after,
    collectFiles fs pre [] = Ok before /\
    collectFiles fs [a] [] = Ok part /\
    collectFiles fs post [] = Ok after /\
    files = before ++ part ++ after.
Proof.
  rewrite collectFiles_app.
  change (a :: post) with ([a] ++ post). rewrite collectFiles_app.
  destruct (collectFiles fs pre []) as [before|]; [|done].
  destruct (collectFiles fs [a] []) as [part|]; [|done].
  destruct (collectFiles fs post []) as [after|]; [|done].
  intros [= <-]. by exists before, part, after.
Qed.

(** What a regular file given as an argument contributes: itself. *)
Lemma collectFiles_file fs a info :
  os_Stat fs a = Ok info -> IsDir info = false ->
  collectFiles fs [a] [] = Ok [a].
Proof. intros Hs Hd. simpl. by rewrite Hs, Hd. Qed.


Lemma occurrences_app p l1 l2 :
  occurrences p (l1 ++ l2) = occurrences p l1 + occurrences p l2.
Proof. unfold occurrences. by rewrite List.filter_app, length_app. Qed.

Lemma occurrences_files fs args :
  forall files,
    collectFiles fs args [] = Ok files ->
    forall a info,
      os_Stat fs a = Ok info -> IsDir info = false ->
      occurrences a args <= occurrences a files.
Proof.
  induction args as [|x rest IH]; intros files Hc a info Hs Hd.
  - unfold occurrences. simpl. lia.
  - apply (collectFiles_split fs [] x rest) in Hc
      as (before & part & after & Hb & Hp & Ha & ->).
    injection Hb as <-. simpl app.
    change (x :: rest) with ([x] ++ rest).
    rewrite !occurrences_app.
    specialize (IH after Ha a info Hs Hd).
    destruct (String.eqb a x) eqn:Hax.
    + apply String.eqb_eq in Hax as <-.
      rewrite (collectFiles_file fs a info Hs Hd) in Hp. injection Hp as <-. lia.
    + unfold occurrences at 1. simpl. rewrite Hax. simpl. lia.
Qed.



(** The theorem at a symbolic link to a directory: the link [live.yaml]
    of the file system below is a directory argument for [os.Stat], and
    what it contributes is itself. *)
Example C2_at_a_symbolic_link :
  treeIsDir (os_Lstat_tree Demo.linked "live.yaml") = false /\
  readable (os_Lstat_tree Demo.linked "live.yaml") = true /\
  walkedFiles "live.yaml" (os_Lstat_tree Demo.linked "live.yaml")
    = ["live.yaml"].
Proof. repeat split. Qed.


(** C3: a regular file named as an argument is in the collected list, as
    it was given, whatever its extension: the collected list is what the
    earlier arguments gave, then the path, then what the later ones gave. *)
Theorem C3_explicit_file_is_included_verbatim fs pre a post files info :
  os_Stat fs a = Ok info -> IsDir info = false ->
  collectFiles fs (pre ++ a :: post) [] = Ok files ->
  a ∈ files /\
  exists before after,
    collectFiles fs pre [] = Ok before /\
    collectFiles fs post [] = Ok after /\
    files = before ++ a :: after.
Proof.
  intros Hs Hd Hc.
  apply collectFiles_split in Hc as (before & part & after & Hb & Hp & Ha & ->).
  rewrite (collectFiles_file fs a info Hs Hd) in Hp. injection Hp as <-.
  split.
  - rewrite !elem_of_app, list_elem_of_singleton. auto.
  - by exists before, after.
Qed.

Lemma C3_witness :
  "notes.txt" ∈ ["rgds/sub/subnet.yml"; "rgds/vpc.yaml"; "notes.txt"; "stack.yaml"] /\
  exists before after,
    collectFiles Demo.fs ["rgds"] [] = Ok before /\
    collectFiles Demo.fs ["stack.yaml"] [] = Ok after /\
    ["rgds/sub/subnet.yml"; "rgds/vpc.yaml"; "notes.txt"; "stack.yaml"]
      = before ++ "notes.txt" :: after.
Proof.
  apply (C3_explicit_file_is_included_verbatim Demo.fs
           ["rgds"] "notes.txt" ["stack.yaml"] _ {| IsDir := false |});
    reflexivity.
Defined.

(** C4, as the code has it: the collected list is flattened, not
    deduplicated.  It is the concatenation, in the order of the arguments,
    of what each argument gives on its own, and a regular file named k
    times among the arguments occurs at least k times in it. *)
Theorem C4_collected_list_is_flattened_without_deduplication fs args files :
  collectFiles fs args [] = Ok files ->
  (exists parts,
     Forall2 (fun a part => collectFiles fs [a] [] = Ok part) args parts /\
     files = concat parts) /\
  (forall a info,
     os_Stat fs a = Ok info -> IsDir info = false ->
     occurrences a args <= occurrences a files).
Proof.
  intros Hc. split; [|by apply occurrences_files].
  revert files Hc. induction args as [|x rest IH]; intros files Hc.
  - injection Hc as <-. exists []. by split; [constructor|].
  - apply (collectFiles_split fs [] x rest) in Hc
      as (before & part & after & Hb & Hp & Ha & ->).
    injection Hb as <-.
    destruct (IH after Ha) as (parts & HF & ->).
    exists (part :: parts). split; [by constructor|done].
Qed.

Lemma C4_witness :
  (exists parts,
     Forall2 (fun a part => collectFiles Demo.fs [a] [] = Ok part)
       ["rgds"; "rgds/vpc.yaml"; "rgds/vpc.yaml"] parts /\
     ["rgds/sub/subnet.yml"; "rgds/vpc.yaml"; "rgds/vpc.yaml"; "rgds/vpc.yaml"]
       = concat parts) /\
  (forall a info,
     os_Stat Demo.fs a = Ok info -> IsDir info = false ->
     occurrences a ["rgds"; "rgds/vpc.yaml"; "rgds/vpc.yaml"] <=
     occurrences a
       ["rgds/sub/subnet.yml"; "rgds/vpc.yaml"; "rgds/vpc.yaml"; "rgds/vpc.yaml"]).
Proof.
  apply (C4_collected_list_is_flattened_without_deduplication Demo.fs
           ["rgds"; "rgds/vpc.yaml"; "rgds/vpc.yaml"]).
  reflexivity.
Defined.

(** The claim of C4 as the specification words it fails: a file named
    twice is collected twice, and so is a file that is named and also
    lies in a directory that is named. *)
Lemma C4_counterexample :
  (collectFiles Demo.fs ["stack.yaml"; "stack.yaml"] []
     = Ok ["stack.yaml"; "stack.yaml"] /\
   ~ NoDup ["stack.yaml"; "stack.yaml"]) /\
  (collectFiles Demo.fs ["rgds"; "rgds/vpc.yaml"] []
     = Ok ["rgds/sub/subnet.yml"; "rgds/vpc.yaml"; "rgds/vpc.yaml"] /\
   ~ NoDup ["rgds/sub/subnet.yml"; "rgds/vpc.yaml"; "rgds/vpc.yaml"]).
Proof.
  split; (split; [reflexivity|]).
  - intros H. apply NoDup_cons in H as [H _]. apply H. by left.
  - intros H. apply NoDup_cons in H as [_ H].
    apply NoDup_cons in H as [H _]. apply H. by left.
Qed.

(** ** Runs *)

Lemma run_bind {W A B} (h : handler W) (p : prog A) (f : A -> prog B) w :
  run h (bind p f) w =
    let '(a, w1, t1) := run h p w in
    let '(b, w2, t2) := run h (f a) w1 in
    (b, w2, t1 ++ t2).
Proof.
  revert w. induction p as [a|X c k IH]; intros w; simpl.
  - by destruct (run h (f a) w) as [[b w2] t2].
  - destruct (h X c w) as [x w1]. rewrite IH.
    destruct (run h (k x) w1) as [[a w2] t1].
    by destruct (run h (f a) w2) as [[b w3] t2].
Qed.

Lemma run_defer {W R X} (h : handler W) (cleanup : prog X) (body : prog R) w :
  run h (defer cleanup body) w =
    let '(r, w1, t1) := run h body w in
    let '(_, w2, t2) := run h cleanup w1 in
    (r, w2, t1 ++ t2).
Proof.
  unfold defer, mbind, prog_bind. rewrite run_bind.
  destruct (run h body w) as [[r w1] t1]. rewrite run_bind.
  destruct (run h cleanup w1) as [[x w2] t2]. simpl. by rewrite app_nil_r.
Qed.

(** The commands are stepped through call by call; the programs they are
    composed of are unfolded only where their own lemmas are used. *)
Arguments SetupRepository : simpl never.
Arguments pushLayers : simpl never.
Arguments printCreated : simpl never.
Arguments report : simpl never.
Arguments defer : simpl never.
Arguments kinds : simpl never.

(** Brings the next composite step of a run in the shape of [run_bind]. *)
Ltac binds := unfold mbind, prog_bind in *.

(** Destructs the reply to the first call that the goal waits for. *)
Tactic Notation "reply" constr(h) :=
  match goal with
  | |- context [h ?X ?c ?w] =>
      let x := fresh "x" in
      let w' := fresh "w" in
      destruct (h X c w) as [x w'] eqn:?; cbn
  end.

(** Destructs the reply to the first call that the goal waits for, with
    names for the reply and for the state of the collaborators. *)
Tactic Notation "reply" constr(h) "as" simple_intropattern(x) simple_intropattern(w) :=
  match goal with
  | |- context [h ?X ?c ?w0] => destruct (h X c w0) as [x w] eqn:?; cbn
  end.

(** ** The repository connector *)

Lemma append_String c s t : String c s +:+ t = String c (s +:+ t).
Proof. reflexivity. Qed.

Lemma HasPrefix_spec prefix :
  forall s, HasPrefix s prefix = true <-> exists rest, s = prefix +:+ rest.
Proof.
  unfold HasPrefix. induction prefix as [|a prefix IH]; intros s; simpl.
  - destruct s; simpl; (split; [intros _; by eexists|done]).
  - destruct s as [|b s]; simpl.
    + split; [done|]. by intros [rest ?].
    + destruct (Ascii.ascii_dec a b) as [->|Hab].
      * rewrite IH. split; intros [rest H]; exists rest;
          rewrite append_String in *; congruence.
      * split; [done|]. intros [rest H]. rewrite append_String in H. congruence.
Qed.

Lemma loopbackHost_spec host :
  HasPrefix host "localhost:" || HasPrefix host "127.0.0.1:" || HasPrefix host "::1:"
    = true
  <-> loopbackHost host.
Proof.
  rewrite !orb_true_iff, !HasPrefix_spec. unfold loopbackHost.
  split.
  - intros [[[port H]|[port H]]|[port H]]; exists port; auto.
  - intros [port [H|[H|H]]]; [left; left|left; right|right]; by exists port.
Qed.

(** What SetupRepository returns, from the two replies it gets. *)
Lemma SetupRepository_run {W} (h : handler W) reference w :
  run h (SetupRepository reference) w =
    let '(r1, w1) := h _ (registry_ParseReference reference) w in
    match r1 with
    | Err err =>
        (Err (Errorf_w ("invalid reference " +:+ reference +:+ ": ") err), w1,
         [Entry (registry_ParseReference reference) r1])
    | Ok ref =>
        let '(r2, w2) := h _ credentials_NewStoreFromDocker w1 in
        (match r2 with
         | Err err => Err (Errorf_w "failed to create credential store: " err)
         | Ok credStore =>
             Ok {| Repository_Reference := ref;
                   PlainHTTP := HasPrefix (Host ref) "localhost:" ||
                                HasPrefix (Host ref) "127.0.0.1:" ||
                                HasPrefix (Host ref) "::1:";
                   Client := Some {| Credential := credStore |} |}
         end, w2,
         [Entry (registry_ParseReference reference) r1;
          Entry credentials_NewStoreFromDocker r2])
    end.
Proof.
  unfold SetupRepository, remote_NewRepository. simpl.
  destruct (h _ (registry_ParseReference reference) w) as [[ref|err] w1]; simpl; [|done].
  destruct (h _ credentials_NewStoreFromDocker w1) as [[credStore|err] w2]; simpl; [|done].
  by destruct (HasPrefix (Host ref) "localhost:" ||
               HasPrefix (Host ref) "127.0.0.1:" ||
               HasPrefix (Host ref) "::1:").
Qed.

(** C5: the repository that SetupRepository returns uses plain HTTP if
    and only if the host of the parsed reference is a loopback host
    ([localhost:], [127.0.0.1:] or [::1:] and a port); for every other
    host it keeps the encrypted transport that [remote.NewRepository]
    starts with. *)
Theorem C5_plain_http_iff_loopback_host
  {W} (h : handler W) w reference repo :
  result_of (run h (SetupRepository reference) w) = Ok repo ->
  (h _ (registry_ParseReference reference) w).1 = Ok (Repository_Reference repo) /\
  (PlainHTTP repo = true <-> loopbackHost (Host (Repository_Reference repo))) /\
  (~ loopbackHost (Host (Repository_Reference repo)) -> PlainHTTP repo = false).
Proof.
  rewrite SetupRepository_run. unfold result_of.
  destruct (h _ (registry_ParseReference reference) w) as [[ref|err] w1]; simpl; [|done].
  destruct (h _ credentials_NewStoreFromDocker w1) as [[credStore|err] w2]; simpl; [|done].
  intros [= <-]. simpl. split; [done|].
  split; [apply loopbackHost_spec|].
  intros Hn. apply not_true_is_false. by rewrite loopbackHost_spec.
Qed.

Lemma C5_witness :
  (Demo.handle _ (registry_ParseReference "localhost:5001/stack:v1") "").1 =
    Ok {| Registry := "localhost:5001"; Repository := "stack"; Reference := "v1" |} /\
  (true = true <-> loopbackHost "localhost:5001") /\
  (~ loopbackHost "localhost:5001" -> true = false).
Proof.
  exact (C5_plain_http_iff_loopback_host Demo.handle "" "localhost:5001/stack:v1"
           {| Repository_Reference :=
                {| Registry := "localhost:5001"; Repository := "stack"; Reference := "v1" |};
              PlainHTTP := true;
              Client := Some {| Credential := dockerStore 0 |} |}
           eq_refl).
Defined.

(** The two hosts of the specification. *)
Example SetupRepository_localhost_and_ghcr :
  (PlainHTTP <$> match result_of (run Demo.handle (SetupRepository "localhost:5001/stack:v1") "")
                 with Ok repo => Some repo | Err _ => None end) = Some true /\
  (PlainHTTP <$> match result_of (run Demo.handle (SetupRepository "ghcr.io/acme/stack:v1") "")
                 with Ok repo => Some repo | Err _ => None end) = Some false.
Proof. split; reflexivity. Qed.

(** ** RunPush: failures before the store is created *)

(** C6: when the arguments yield no file, RunPush fails with the
    no-input-files error (the one for an empty argument list, or the one
    for arguments without YAML files) and has made no call at all by
    then: no store is created, no repository set up, nothing copied, and
    the collaborators are as they were. *)
Theorem C6_no_input_files_fails_before_any_call
  {W} (h : handler W) w fs opts :
  collectFiles fs (Filenames opts) [] = Ok [] ->
  run h (RunPush fs opts) w =
    (Some (if Nat.eqb (length (Filenames opts)) 0
           then noFilesSpecified else noYAMLFilesFound), w, []).
Proof.
  intros Hc. unfold RunPush.
  destruct (Nat.eqb (length (Filenames opts)) 0); [done|].
  by rewrite Hc.
Qed.

Lemma C6_witness :
  run Demo.handle
    (RunPush Demo.fs {| Filenames := ["empty"];
                        Push_Reference := "ghcr.io/acme/stack:v1" |}) "" =
    (Some noYAMLFilesFound, "", []).
Proof.
  exact (C6_no_input_files_fails_before_any_call Demo.handle "" Demo.fs
           {| Filenames := ["empty"]; Push_Reference := "ghcr.io/acme/stack:v1" |}
           eq_refl).
Defined.

(** An argument that does not exist makes the collection fail. *)
Lemma collectFiles_missing fs args a err :
  a ∈ args -> os_Stat fs a = Err err -> isErr (collectFiles fs args []) = true.
Proof.
  intros Hin Hs. apply list_elem_of_split in Hin as (pre & post & ->).
  destruct (collectFiles fs (pre ++ a :: post) []) as [files|] eqn:Hc; [|done].
  apply collectFiles_split in Hc as (before & part & after & _ & Hp & _).
  simpl in Hp. by rewrite Hs in Hp.
Qed.

Lemma collectFiles_first_missing fs pre a post err :
  os_Stat fs a = Err err -> isOk (collectFiles fs pre []) = true ->
  collectFiles fs (pre ++ a :: post) [] =
    Err (Errorf_w ("failed to access " +:+ a +:+ ": ") err).
Proof.
  intros Hs Hpre. rewrite collectFiles_app.
  destruct (collectFiles fs pre []) as [before|]; [|done].
  simpl. by rewrite Hs.
Qed.

(** A failed collection is the failure of one argument, the first that
    fails: its stat failure or the failure of its walk, wrapped. *)
Lemma collectFiles_failure fs args :
  forall e,
    collectFiles fs args [] = Err e ->
    exists pre b post inner,
      args = pre ++ b :: post /\
      isOk (collectFiles fs pre []) = true /\
      ((os_Stat fs b = Err inner /\
        e = Errorf_w ("failed to access " +:+ b +:+ ": ") inner) \/
       (os_Stat fs b = Ok {| IsDir := true |} /\
        (filepath_Walk fs b collectFn []).2 = Some inner /\
        e = Errorf_w ("failed to walk directory " +:+ b +:+ ": ") inner)).
Proof.
  induction args as [|x rest IH]; intros e He; [done|].
  change (x :: rest) with ([x] ++ rest) in He. rewrite collectFiles_app in He.
  destruct (collectFiles fs [x] []) as [part|e'] eqn:Hx.
  - destruct (collectFiles fs rest []) as [|e''] eqn:Hr; [done|].
    injection He as ->.
    destruct (IH e eq_refl) as (pre & b & post & inner & -> & Hpre & Hb).
    exists (x :: pre), b, post, inner. split; [done|]. split; [|done].
    change (x :: pre) with ([x] ++ pre). rewrite collectFiles_app, Hx.
    by destruct (collectFiles fs pre []).
  - injection He as ->. exists [], x, rest. cbn in Hx.
    destruct (os_Stat fs x) as [[[]]|err] eqn:Hs; cbn in Hx.
    + destruct (filepath_Walk fs x collectFn []) as [l [inner|]] eqn:Hw; [|done].
      injection Hx as <-. exists inner. split; [done|]. split; [done|]. by right.
    + done.
    + injection Hx as <-. exists err. split; [done|]. split; [done|]. by left.
Qed.

(** C7, as the code has it: when an argument does not exist, RunPush
    fails and has made no call at all by then, so nothing is staged or
    pushed.  The error is the stat failure of that argument, wrapped,
    when the arguments before it were collected.  Otherwise it is the
    error of the first argument before it that fails: the stat failure of
    that argument or the failure of its walk, wrapped. *)
Theorem C7_missing_argument_fails_before_staging
  {W} (h : handler W) w fs opts a err :
  a ∈ Filenames opts -> os_Stat fs a = Err err ->
  (exists e, result_of (run h (RunPush fs opts) w) = Some e) /\
  trace_of (run h (RunPush fs opts) w) = [] /\
  (forall pre post,
     Filenames opts = pre ++ a :: post ->
     isOk (collectFiles fs pre []) = true ->
     result_of (run h (RunPush fs opts) w) =
       Some (Errorf_w ("failed to access " +:+ a +:+ ": ") err)) /\
  (forall pre post e,
     Filenames opts = pre ++ a :: post ->
     collectFiles fs pre [] = Err e ->
     result_of (run h (RunPush fs opts) w) = Some e /\
     exists earlier b later inner,
       pre = earlier ++ b :: later /\
       isOk (collectFiles fs earlier []) = true /\
       ((os_Stat fs b = Err inner /\
         e = Errorf_w ("failed to access " +:+ b +:+ ": ") inner) \/
        (os_Stat fs b = Ok {| IsDir := true |} /\
         (filepath_Walk fs b collectFn []).2 = Some inner /\
         e = Errorf_w ("failed to walk directory " +:+ b +:+ ": ") inner))).
Proof.
  intros Hin Hs. unfold RunPush.
  destruct (Filenames opts) as [|x rest] eqn:HF; [by apply elem_of_nil in Hin|].
  change (Nat.eqb (length (x :: rest)) 0) with false. cbv iota.
  pose proof (collectFiles_missing fs (x :: rest) a err Hin Hs) as He.
  split; [|split; [|split]].
  - destruct (collectFiles fs (x :: rest) []); [done|]. by eexists.
  - by destruct (collectFiles fs (x :: rest) []).
  - intros pre post -> Hpre.
    by rewrite (collectFiles_first_missing fs pre a post err Hs Hpre).
  - intros pre post e -> Hpre. split.
    + by rewrite collectFiles_app, Hpre.
    + by apply collectFiles_failure.
Qed.

Lemma C7_witness :
  (exists e,
     result_of (run Demo.handle
       (RunPush Demo.fs {| Filenames := ["stack.yaml"; "missing.yaml"; "rgds"];
                           Push_Reference := "ghcr.io/acme/stack:v1" |}) "") = Some e) /\
  trace_of (run Demo.handle
       (RunPush Demo.fs {| Filenames := ["stack.yaml"; "missing.yaml"; "rgds"];
                           Push_Reference := "ghcr.io/acme/stack:v1" |}) "") = [] /\
  (forall pre post,
     ["stack.yaml"; "missing.yaml"; "rgds"] = pre ++ "missing.yaml" :: post ->
     isOk (collectFiles Demo.fs pre []) = true ->
     result_of (run Demo.handle
       (RunPush Demo.fs {| Filenames := ["stack.yaml"; "missing.yaml"; "rgds"];
                           Push_Reference := "ghcr.io/acme/stack:v1" |}) "") =
       Some (Errorf_w ("failed to access " +:+ "missing.yaml" +:+ ": ")
               (Demo.noSuchFile "stat" "missing.yaml"))) /\
  (forall pre post e,
     ["stack.yaml"; "missing.yaml"; "rgds"] = pre ++ "missing.yaml" :: post ->
     collectFiles Demo.fs pre [] = Err e ->
     result_of (run Demo.handle
       (RunPush Demo.fs {| Filenames := ["stack.yaml"; "missing.yaml"; "rgds"];
                           Push_Reference := "ghcr.io/acme/stack:v1" |}) "") = Some e /\
     exists earlier b later inner,
       pre = earlier ++ b :: later /\
       isOk (collectFiles Demo.fs earlier []) = true /\
       ((os_Stat Demo.fs b = Err inner /\
         e = Errorf_w ("failed to access " +:+ b +:+ ": ") inner) \/
        (os_Stat Demo.fs b = Ok {| IsDir := true |} /\
         (filepath_Walk Demo.fs b collectFn []).2 = Some inner /\
         e = Errorf_w ("failed to walk directory " +:+ b +:+ ": ") inner))).
Proof.
  apply (C7_missing_argument_fails_before_staging Demo.handle "" Demo.fs
           {| Filenames := ["stack.yaml"; "missing.yaml"; "rgds"];
              Push_Reference := "ghcr.io/acme/stack:v1" |}
           "missing.yaml" (Demo.noSuchFile "stat" "missing.yaml")).
  - apply (bool_decide_unpack _). reflexivity.
  - reflexivity.
Defined.

(** Where the walk of an earlier directory fails, the error is that
    failure: with [locked] before [missing.yaml], RunPush returns the
    failed walk of [locked], as the last part of C7 says. *)
Example RunPush_locked_before_missing :
  collectFiles Demo.fs ["locked"] [] =
    Err (Errorf_w ("failed to walk directory " +:+ "locked" +:+ ": ")
           (Demo.permissionDenied "locked")) /\
  result_of (run Demo.handle
    (RunPush Demo.fs {| Filenames := ["locked"; "missing.yaml"];
                        Push_Reference := "ghcr.io/acme/stack:v1" |}) "") =
    Some (Errorf_w ("failed to walk directory " +:+ "locked" +:+ ": ")
            (Demo.permissionDenied "locked")).
Proof. split; reflexivity. Qed.

(** The claim of C7 as the specification words it fails when the walk of
    an earlier directory fails: [missing.yaml] does not exist, and the
    error of RunPush is the failure of the walk of [locked], which is the
    stat failure of no argument. *)
Lemma C7_counterexample :
  "missing.yaml" ∈ ["locked"; "missing.yaml"] /\
  isErr (os_Stat Demo.fs "missing.yaml") = true /\
  result_of (run Demo.handle
    (RunPush Demo.fs {| Filenames := ["locked"; "missing.yaml"];
                        Push_Reference := "ghcr.io/acme/stack:v1" |}) "") =
    Some (wrapError "failed to walk directory locked: open locked: permission denied"
            (Demo.permissionDenied "locked")) /\
  ~ (exists a err,
       a ∈ ["locked"; "missing.yaml"] /\
       os_Stat Demo.fs a = Err err /\
       result_of (run Demo.handle
         (RunPush Demo.fs {| Filenames := ["locked"; "missing.yaml"];
                             Push_Reference := "ghcr.io/acme/stack:v1" |}) "") =
         Some (Errorf_w ("failed to access " +:+ a +:+ ": ") err)).
Proof.
  split; [apply (bool_decide_unpack _); reflexivity|].
  split; [reflexivity|].
  split; [reflexivity|].
  intros (a & err & _ & _ & Hr).
  vm_compute in Hr. injection Hr. intros. discriminate.
Qed.

(** ** RunPush: staging, packing, tagging, pushing *)

Lemma kinds_app tr1 tr2 : kinds (tr1 ++ tr2) = kinds tr1 ++ kinds tr2.
Proof. apply fmap_app. Qed.

Lemma not_elem_of_kinds k tr :
  k ∉ kinds tr <-> Forall (fun e => ekind e <> k) tr.
Proof.
  unfold kinds. rewrite Forall_forall. split.
  - intros Hn e He Hk. apply Hn. rewrite <- Hk. by apply list_elem_of_fmap_2.
  - intros HF Hin. apply list_elem_of_fmap in Hin as (e & -> & He).
    by apply (HF e He).
Qed.

(** The staging loop makes only Add and log calls.  When it returns the
    layers, it has added every file, in order, and no Add failed; when it
    returns an error, that is the failure of an Add. *)
Lemma stageFiles_run {W} (h : handler W) store files :
  forall layers w,
    Forall (fun e => ekind e = KAdd \/ ekind e = KLog)
      (trace_of (run h (stageFiles store files layers) w)) /\
    match result_of (run h (stageFiles store files layers) w) with
    | Ok _ =>
        omap stagedPath (trace_of (run h (stageFiles store files layers) w)) = files /\
        Forall (fun e => stagingFailed e = false)
          (trace_of (run h (stageFiles store files layers) w))
    | Err e =>
        (exists path err,
           path ∈ files /\
           e = Errorf_w ("failed to add " +:+ path +:+ " to store: ") err) /\
        Exists (fun e => stagingFailed e = true)
          (trace_of (run h (stageFiles store files layers) w))
    end.
Proof.
  unfold result_of, trace_of.
  induction files as [|file rest IH]; intros layers w; simpl.
  - by repeat split.
  - reply h. destruct x as [desc|err]; simpl.
    + reply h.
      specialize (IH (layers ++ [desc]) w1).
      destruct (run h (stageFiles store rest (layers ++ [desc])) w1)
        as [[r w2] tr]; simpl in *.
      destruct IH as [Hk Hr]. split.
      * constructor; [by left|]. constructor; [by right|]. done.
      * destruct r as [layers'|e].
        -- destruct Hr as [Hp Hf]. split; [f_equal; exact Hp|].
           by repeat constructor.
        -- destruct Hr as [(path & err & Hin & ->) Hf]. split.
           ++ exists path, err. split; [by right|done].
           ++ by do 2 apply Exists_cons_tl.
    + split; [by repeat constructor|]. split.
      * exists file, err. split; [by left|done].
      * by apply Exists_cons_hd.
Qed.

(** After staging, the calls come in this order: pack, tag with the
    reference of the options, then the repository and the copy.  No file
    is added any more, and nothing is tagged but what was packed. *)
Lemma pushLayers_run {W} (h : handler W) opts store allFiles layers w :
  Forall (fun e => ekind e <> KAdd)
    (trace_of (run h (pushLayers opts store allFiles layers) w)) /\
  (Forall (fun e => ekind e <> KTag /\ ekind e <> KCopy)
     (trace_of (run h (pushLayers opts store allFiles layers) w)) \/
   exists packed tagged post,
     trace_of (run h (pushLayers opts store allFiles layers) w)
       = packed :: tagged :: post /\
     ekind packed = KPack /\
     taggedReference tagged = Some (Push_Reference opts) /\
     Forall (fun e => ekind e <> KTag) post).
Proof.
  unfold trace_of, pushLayers. cbn.
  reply h. destruct x as [manifestDesc|err]; cbn;
    [|split; [|left]; by repeat constructor].
  reply h. destruct x as [err|]; cbn.
  { split; [by repeat constructor|]. right.
    eexists _, _, _. split; [done|]. by repeat split. }
  binds. rewrite run_bind, SetupRepository_run.
  reply h. destruct x as [ref|err]; cbn.
  2: { split; [by repeat constructor|]. right.
       eexists _, _, _. split; [done|]. repeat split; by repeat constructor. }
  reply h. destruct x as [credStore|err]; cbn.
  2: { split; [by repeat constructor|]. right.
       eexists _, _, _. split; [done|]. repeat split; by repeat constructor. }
  destruct (HasPrefix (Host ref) "localhost:" || HasPrefix (Host ref) "127.0.0.1:" ||
            HasPrefix (Host ref) "::1:"); cbn.
  - reply h. reply h. reply h. destruct x1 as [desc|err]; cbn.
    + reply h. reply h. split; [by repeat constructor|]. right.
      eexists _, _, _. split; [done|]. repeat split; by repeat constructor.
    + split; [by repeat constructor|]. right.
      eexists _, _, _. split; [done|]. repeat split; by repeat constructor.
  - reply h. reply h. destruct x0 as [desc|err]; cbn.
    + reply h. reply h. split; [by repeat constructor|]. right.
      eexists _, _, _. split; [done|]. repeat split; by repeat constructor.
    + split; [by repeat constructor|]. right.
      eexists _, _, _. split; [done|]. repeat split; by repeat constructor.
Qed.

Lemma stagingFailed_kind e : stagingFailed e = true -> ekind e = KAdd.
Proof. destruct e as [X c x]. by destruct c. Qed.

Lemma stagedPath_kind e path : stagedPath e = Some path -> ekind e = KAdd.
Proof. destruct e as [X c x]. by destruct c. Qed.

Lemma not_staged tr :
  Forall (fun e => ekind e <> KAdd) tr ->
  omap stagedPath tr = [] /\ Forall (fun e => stagingFailed e = false) tr.
Proof.
  induction 1 as [|e tr He _ [IH1 IH2]]; [done|]. split.
  - cbn. destruct (stagedPath e) as [path|] eqn:Hp; [|done].
    by apply stagedPath_kind in Hp.
  - constructor; [|done]. destruct (stagingFailed e) eqn:Hf; [|done].
    by apply stagingFailed_kind in Hf.
Qed.

(** A list splits in one way only around its one element with a property. *)
Lemma split_unique {A} (P : A -> Prop) l1 x l2 pre e post :
  Forall (fun a => ~ P a) l1 -> Forall (fun a => ~ P a) l2 -> P e ->
  l1 ++ x :: l2 = pre ++ e :: post ->
  pre = l1 /\ e = x /\ post = l2.
Proof.
  intros H1 H2 He. revert pre. induction H1 as [|a l1 Ha _ IH]; intros pre Heq.
  - destruct pre as [|b pre]; simplify_eq/=; [done|].
    exfalso. apply Forall_app in H2 as [_ H2]. by inversion H2.
  - destruct pre as [|b pre]; simplify_eq/=; [done|].
    by destruct (IH pre) as (-> & -> & ->).
Qed.

Lemma split_absent {A} (P : A -> Prop) l pre e post :
  Forall (fun a => ~ P a) l -> P e -> l <> pre ++ e :: post.
Proof.
  intros Hl He ->. apply Forall_app in Hl as [_ Hl]. by inversion Hl.
Qed.

(** C1: packing is all-or-nothing.  In every run of RunPush, against any
    behaviour of the store and the registry: (a) when an Add to the store
    fails, RunPush returns the error of that Add, and the run has no
    PackManifest, no Tag and no Copy; (b) where the run has a Tag, it tags
    with the reference of the options, every collected file was added to
    the store before it, in order and without a failure, and no file is
    added after it. *)
Theorem C1_packing_is_all_or_nothing {W} (h : handler W) w fs opts :
  (Exists (fun e => stagingFailed e = true)
     (trace_of (run h (RunPush fs opts) w)) ->
   (exists path err,
      result_of (run h (RunPush fs opts) w) =
        Some (Errorf_w ("failed to add " +:+ path +:+ " to store: ") err)) /\
   (KPack ∉ kinds (trace_of (run h (RunPush fs opts) w))) /\
   (KTag ∉ kinds (trace_of (run h (RunPush fs opts) w))) /\
   (KCopy ∉ kinds (trace_of (run h (RunPush fs opts) w)))) /\
  (forall pre e post,
     trace_of (run h (RunPush fs opts) w) = pre ++ e :: post ->
     ekind e = KTag ->
     taggedReference e = Some (Push_Reference opts) /\
     collectFiles fs (Filenames opts) [] = Ok (omap stagedPath pre) /\
     Forall (fun e' => stagingFailed e' = false) pre /\
     (KAdd ∉ kinds post)).
Proof.
  unfold RunPush.
  destruct (Nat.eqb (length (Filenames opts)) 0).
  { split; [by inversion 1|]. intros [|??] ??; discriminate. }
  destruct (collectFiles fs (Filenames opts) []) as [allFiles|err0].
  2: { split; [by inversion 1|]. intros [|??] ??; discriminate. }
  destruct (Nat.eqb (length allFiles) 0).
  { split; [by inversion 1|]. intros [|??] ??; discriminate. }
  unfold result_of, trace_of. cbn. reply h. reply h.
  destruct x0 as [store|err0]; cbn.
  2: { split.
       - intros Hex. repeat (apply Exists_cons in Hex as [Hex|Hex]; [done|]).
         by apply Exists_nil in Hex.
       - intros pre e post Heq Hk. exfalso.
         refine (split_absent (fun e => ekind e = KTag) _ pre e post _ Hk Heq).
         by repeat constructor. }
  rewrite run_defer. binds. rewrite run_bind.
  pose proof (stageFiles_run h store allFiles [] w1) as [Hkinds Hstage].
  unfold result_of, trace_of in Hkinds, Hstage.
  destruct (run h (stageFiles store allFiles []) w1) as [[r w2] trs].
  cbn in Hkinds, Hstage.
  assert (Hnotag : Forall (fun e => ekind e <> KTag) trs).
  { eapply Forall_impl; [exact Hkinds|]. intros e [-> | ->]; done. }
  destruct r as [layers|err1].
  - (* every file was staged *)
    destruct Hstage as [Hpaths Hok].
    pose proof (pushLayers_run h opts store allFiles layers w2) as [Hnoadd Hshape].
    unfold trace_of in Hnoadd, Hshape.
    destruct (run h (pushLayers opts store allFiles layers) w2) as [[r w3] trp].
    cbn in Hnoadd, Hshape. cbn. reply h.
    destruct (not_staged trp Hnoadd) as [Hnone Hnofail].
    split.
    + intros Hex. exfalso.
      apply Exists_cons in Hex as [Hex|Hex]; [done|].
      apply Exists_cons in Hex as [Hex|Hex]; [done|].
      rewrite !Exists_app in Hex. destruct Hex as [[Hex|Hex]|Hex].
      * apply Exists_exists in Hex as (e & He & Hf).
        rewrite Forall_forall in Hok. specialize (Hok e He). congruence.
      * apply Exists_exists in Hex as (e & He & Hf).
        rewrite Forall_forall in Hnofail. specialize (Hnofail e He). congruence.
      * apply Exists_cons in Hex as [Hex|Hex]; [done|]. by apply Exists_nil in Hex.
    + intros pre e post Heq Hk.
      destruct Hshape as [Hnone'|(packed & tagged & post' & -> & Hpk & Htag & Hpost)].
      { exfalso.
        refine (split_absent (fun e => ekind e = KTag) _ pre e post _ Hk Heq).
        repeat (constructor; [done|]). apply Forall_app. split;
          [|by repeat constructor].
        apply Forall_app. split; [done|].
        eapply Forall_impl; [exact Hnone'|]. by intros ? [? _]. }
      match type of Heq with
      | ?a :: ?b :: (trs ++ packed :: tagged :: post') ++ [?c] = _ =>
          assert (Hsplit :
            (a :: b :: trs ++ [packed]) ++ tagged :: (post' ++ [c]) = pre ++ e :: post)
      end.
      { rewrite <- Heq. cbn. do 2 f_equal. by rewrite <- !app_assoc. }
      apply (split_unique (fun e => ekind e = KTag)) in Hsplit as (-> & -> & ->);
        [| |by apply Forall_app; split; [|repeat constructor]|done].
      2: { repeat (constructor; [done|]). apply Forall_app. split; [done|].
           constructor; [|done]. by rewrite Hpk. }
      apply Forall_inv_tail in Hnoadd as Hnoadd'.
      apply Forall_inv_tail in Hnoadd'.
      split; [done|]. split; [|split].
      * cbn. rewrite omap_app. cbn.
        destruct (stagedPath packed) eqn:Hsp;
          [apply stagedPath_kind in Hsp; congruence|].
        rewrite app_nil_r. f_equal. symmetry. exact Hpaths.
      * repeat (constructor; [done|]). apply Forall_app. split; [done|].
        constructor; [|done].
        destruct (stagingFailed packed) eqn:Hsf; [|done].
        apply stagingFailed_kind in Hsf. congruence.
      * apply not_elem_of_kinds. apply Forall_app. split; [done|].
        by repeat constructor.
  - (* an Add failed *)
    destruct Hstage as [(path & err & _ & ->) _]. cbn. reply h.
    rewrite app_nil_r. split.
    + intros _. split; [by exists path, err|].
      match goal with |- (_ ∉ kinds ?tr) /\ _ =>
        assert (Hother : forall k,
          k <> KLog -> k <> KNewStore -> k <> KAdd -> k <> KCloseStore ->
          k ∉ kinds tr)
      end.
      { intros k ? ? ? ?. apply not_elem_of_kinds.
        repeat (constructor; [done|]). apply Forall_app. split;
          [|by repeat constructor].
        eapply Forall_impl; [exact Hkinds|]. intros e [-> | ->]; done. }
      split; [|split]; by apply Hother.
    + intros pre e post Heq Hk. exfalso.
      refine (split_absent (fun e => ekind e = KTag) _ pre e post _ Hk Heq).
      repeat (constructor; [done|]). apply Forall_app. split; [done|].
      by repeat constructor.
Qed.

Lemma C1_witness :
  ((exists path err,
      result_of (run Demo.handle
        (RunPush Demo.fs (Demo.push ["stack.yaml"; "secret.yaml"; "rgds"])) "") =
        Some (Errorf_w ("failed to add " +:+ path +:+ " to store: ") err)) /\
   (KPack ∉ kinds (trace_of (run Demo.handle
        (RunPush Demo.fs (Demo.push ["stack.yaml"; "secret.yaml"; "rgds"])) ""))) /\
   (KTag ∉ kinds (trace_of (run Demo.handle
        (RunPush Demo.fs (Demo.push ["stack.yaml"; "secret.yaml"; "rgds"])) ""))) /\
   (KCopy ∉ kinds (trace_of (run Demo.handle
        (RunPush Demo.fs (Demo.push ["stack.yaml"; "secret.yaml"; "rgds"])) "")))) /\
  (taggedReference Demo.tagEntry = Some "localhost:5001/stack:v1" /\
   collectFiles Demo.fs ["stack.yaml"; "rgds"] [] =
     Ok (omap stagedPath (take 9 (trace_of (run Demo.handle
           (RunPush Demo.fs (Demo.push ["stack.yaml"; "rgds"])) "")))) /\
   Forall (fun e' => stagingFailed e' = false)
     (take 9 (trace_of (run Demo.handle
        (RunPush Demo.fs (Demo.push ["stack.yaml"; "rgds"])) ""))) /\
   (KAdd ∉ kinds (drop 10 (trace_of (run Demo.handle
        (RunPush Demo.fs (Demo.push ["stack.yaml"; "rgds"])) ""))))).
Proof.
  split.
  - apply (C1_packing_is_all_or_nothing Demo.handle "" Demo.fs
             (Demo.push ["stack.yaml"; "secret.yaml"; "rgds"])).
    vm_compute. do 4 apply Exists_cons_tl. by apply Exists_cons_hd.
  - apply (proj2 (C1_packing_is_all_or_nothing Demo.handle "" Demo.fs
                    (Demo.push ["stack.yaml"; "rgds"]))
             _ Demo.tagEntry _); reflexivity.
Defined.

(** A push of a file and a directory in the demo world: what is staged,
    in order, and the calls made. *)
Example RunPush_scenario :
  omap stagedPath (trace_of
    (run Demo.handle (RunPush Demo.fs (Demo.push ["stack.yaml"; "rgds"])) "")) =
    ["stack.yaml"; "rgds/sub/subnet.yml"; "rgds/vpc.yaml"] /\
  result_of
    (run Demo.handle (RunPush Demo.fs (Demo.push ["stack.yaml"; "rgds"])) "") = None /\
  kinds (trace_of
    (run Demo.handle (RunPush Demo.fs (Demo.push ["stack.yaml"; "rgds"])) "")) =
    [KLog; KNewStore; KAdd; KLog; KAdd; KLog; KAdd; KLog; KPack; KTag;
     KParseReference; KCredentials; KLog; KLog; KCopy; KPrintf; KPrintf;
     KCloseStore].
Proof. repeat split. Qed.

(** ** RunInspect *)

Lemma parsedManifest_kind e manifest :
  parsedManifest e = Some manifest -> ekind e = KUnmarshal.
Proof. destruct e as [X c x]. by destruct c. Qed.

Lemma layerName_unknown layer :
  titleAnnotation layer = None -> layerName layer = "unknown".
Proof.
  unfold titleAnnotation, layerName.
  destruct (Annotations layer) as [annotations|]; [|done].
  by intros ->.
Qed.

Lemma printLayers_run {W} (h : handler W) wr layers :
  forall w,
    table (trace_of (run h (printLayers wr layers) w)) = rowOf <$> layers /\
    printed (trace_of (run h (printLayers wr layers) w)) = [] /\
    Forall (fun e => ekind e = KFprintf)
      (trace_of (run h (printLayers wr layers) w)).
Proof.
  unfold trace_of.
  induction layers as [|layer rest IH]; intros w; cbn; [done|].
  reply h. specialize (IH w0).
  destruct (run h (printLayers wr rest) w0) as [[r w1] tr]. cbn in *.
  destruct IH as (Ht & Hp & Hk). repeat split.
  - unfold table in *. cbn. f_equal. exact Ht.
  - exact Hp.
  - by constructor.
Qed.

Lemma printCreated_run {W} (h : handler W) manifest w :
  table (trace_of (run h (printCreated manifest) w)) = [] /\
  Forall (fun e => ekind e <> KUnmarshal /\ ekind e <> KFprintf /\ ekind e <> KFlush)
    (trace_of (run h (printCreated manifest) w)) /\
  (createdMissingOrMalformed h manifest ->
   printed (trace_of (run h (printCreated manifest) w)) = []).
Proof.
  unfold trace_of, printCreated, createdMissingOrMalformed, createdAnnotation.
  destruct (Annotations (Config manifest)) as [annotations|]; cbn; [|done].
  destruct (annotations !! AnnotationCreated) as [created|]; cbn; [|done].
  reply h. destruct x as [t|err]; cbn.
  - reply h. reply h. repeat split; [by repeat constructor|].
    intros [|(created' & [= <-] & Hmal)]; [done|].
    specialize (Hmal w). by rewrite Heqp in Hmal.
  - repeat split. by repeat constructor.
Qed.

(** The report never fails.  It prints the header, the Created line if
    there is one, and then either the no-definitions message or the
    heading and, through the table writer, one row per layer. *)
Lemma report_run {W} (h : handler W) repo manifestDesc manifest w :
  result_of (run h (report repo manifestDesc manifest) w) = None /\
  Forall (fun e => ekind e <> KUnmarshal)
    (trace_of (run h (report repo manifestDesc manifest) w)) /\
  (exists w',
     printed (trace_of (run h (report repo manifestDesc manifest) w)) =
       reportHeader repo manifestDesc ++
       printed (trace_of (run h (printCreated manifest) w')) ++
       [if Nat.eqb (length (Layers manifest)) 0
        then noDefinitionsFound else definitionsHeading]) /\
  table (trace_of (run h (report repo manifestDesc manifest) w)) =
    (if Nat.eqb (length (Layers manifest)) 0 then []
     else tableHeader :: (rowOf <$> Layers manifest)) /\
  (Nat.eqb (length (Layers manifest)) 0 = false ->
   last (kinds (trace_of (run h (report repo manifestDesc manifest) w)))
     = Some KFlush).
Proof.
  unfold result_of, trace_of, report. cbn.
  reply h. reply h. reply h. binds. rewrite run_bind.
  pose proof (printCreated_run h manifest w2) as (Htc & Hkc & _).
  unfold trace_of in Htc, Hkc |- *.
  destruct (run h (printCreated manifest) w2) as [[[] w3] trc] eqn:Hrun.
  cbn in Htc, Hkc.
  destruct (Nat.eqb (length (Layers manifest)) 0); cbn.
  - reply h. cbn. split; [done|]. split.
    { repeat (constructor; [done|]). apply Forall_app. split; [|by repeat constructor].
      eapply Forall_impl; [exact Hkc|]. by intros ? [? _]. }
    split.
    { exists w2. rewrite Hrun. unfold printed. cbn. do 3 f_equal.
      rewrite omap_app. done. }
    split; [|done].
    unfold table. cbn. rewrite omap_app. unfold table in Htc. by rewrite Htc.
  - reply h. reply h. reply h. rewrite run_bind.
    pose proof (printLayers_run h x3 (Layers manifest) w6) as (Htl & Hpl & Hkl).
    unfold trace_of in Htl, Hpl, Hkl.
    destruct (run h (printLayers x3 (Layers manifest)) w6) as [[[] w7] trl].
    cbn in Htl, Hpl, Hkl. cbn. reply h. cbn. split; [done|]. split.
    { repeat (constructor; [done|]). apply Forall_app. split.
      - eapply Forall_impl; [exact Hkc|]. by intros ? [? _].
      - repeat (constructor; [done|]). apply Forall_app. split; [|by repeat constructor].
        eapply Forall_impl; [exact Hkl|]. by intros ? ->. }
    split.
    { exists w2. rewrite Hrun. unfold printed in *. cbn. do 3 f_equal.
      rewrite omap_app. cbn. rewrite omap_app, Hpl. done. }
    split.
    { unfold table in *. cbn. rewrite omap_app, Htc. cbn.
      rewrite omap_app, Htl. cbn. by rewrite app_nil_r. }
    intros _. unfold kinds. cbn.
    rewrite !fmap_app, !fmap_cons, !fmap_app. cbn.
    rewrite !app_comm_cons, !app_assoc. apply last_snoc.
Qed.

(** Finds which entry of a trace can be the parsed manifest. *)
Ltac find_parsed He Hp :=
  repeat match type of He with
  | _ ∈ [] => by apply elem_of_nil in He
  | _ ∈ _ :: _ =>
      apply elem_of_cons in He as [->|He];
        [first [discriminate Hp | by injection Hp]|]
  | _ ∈ _ ++ _ => apply elem_of_app in He as [He|He]
  | _ ∈ ?l =>
      match goal with
      | H : Forall _ l |- _ =>
          rewrite Forall_forall in H; specialize (H _ He);
          apply parsedManifest_kind in Hp; congruence
      end
  end.

(** A run of RunInspect in which a manifest was parsed is the calls up to
    the parsing, the report on that manifest, and the closing of the
    reader; it returns what the report returns. *)
Lemma RunInspect_parsed {W} (h : handler W) opts w e manifest :
  e ∈ trace_of (run h (RunInspect opts) w) ->
  parsedManifest e = Some manifest ->
  exists repo manifestDesc w1 pre post,
    result_of (run h (RunInspect opts) w) =
      result_of (run h (report repo manifestDesc manifest) w1) /\
    trace_of (run h (RunInspect opts) w) =
      pre ++ trace_of (run h (report repo manifestDesc manifest) w1) ++ post /\
    printed pre = [] /\ table pre = [] /\
    printed post = [] /\ table post = [].
Proof.
  unfold result_of, trace_of, RunInspect. cbn.
  reply h as [] w1. binds. rewrite run_bind, SetupRepository_run.
  reply h as [ref|err] w2.
  2: { intros He Hp. exfalso. find_parsed He Hp. }
  reply h as [credStore|err] w3.
  2: { intros He Hp. exfalso. find_parsed He Hp. }
  rewrite run_bind.
  match goal with
  | |- context [run h (if ?b then _ else _) ?w] =>
      destruct (run h (if b then call (Logger_Debug "Using plain HTTP for local registry"
                        [("host", anyString (Host ref))]) else mret ()) w)
        as [[[] w4] trd] eqn:Hd;
      assert (Hlog : printed trd = [] /\ table trd = [] /\
                     Forall (fun e => ekind e = KLog) trd)
  end.
  { destruct (HasPrefix (Host ref) "localhost:" || HasPrefix (Host ref) "127.0.0.1:" ||
              HasPrefix (Host ref) "::1:"); cbn in Hd.
    - destruct (h _ (Logger_Debug "Using plain HTTP for local registry"
                       [("host", anyString (Host ref))]) w3) as [[] w5].
      injection Hd as _ <-. by repeat constructor.
    - injection Hd as _ <-. by repeat constructor. }
  clear Hd. destruct Hlog as (Hlp & Hlt & Hlk).
  cbn. reply h as [[manifestDesc rc]|err] w5.
  2: { intros He Hp. exfalso. find_parsed He Hp. }
  rewrite run_defer. cbn. reply h as [] w6. reply h as [manifestBytes|err] w7.
  2: { reply h as ? w8. intros He Hp. exfalso. find_parsed He Hp. }
  reply h as [manifest'|err] w8.
  2: { reply h as ? w9. intros He Hp. exfalso. find_parsed He Hp. }
  set (repo := {| Repository_Reference := ref;
                  PlainHTTP := HasPrefix (Host ref) "localhost:" ||
                               HasPrefix (Host ref) "127.0.0.1:" ||
                               HasPrefix (Host ref) "::1:";
                  Client := Some {| Credential := credStore |} |}).
  pose proof (report_run h repo manifestDesc manifest' w8) as (_ & Hku & _).
  unfold trace_of in Hku.
  destruct (run h (report repo manifestDesc manifest') w8) as [[r w9] trr] eqn:Hrun.
  cbn in Hku. cbn. reply h as closed w10.
  intros He Hp.
  assert (manifest' = manifest) as ->.
  { clear Hrun. find_parsed He Hp. }
  exists repo, manifestDesc, w8,
    ([Entry (Logger_Info "Inspecting artifact"
               [("reference", anyString (Inspect_Reference opts))]) ();
      Entry (registry_ParseReference (Inspect_Reference opts)) (Ok ref);
      Entry credentials_NewStoreFromDocker (Ok credStore)] ++ trd ++
     [Entry (Repository_FetchReference repo (Inspect_Reference opts))
        (Ok (manifestDesc, rc));
      Entry (Logger_Debug "Fetched manifest"
               [("digest", anyString (Digest manifestDesc));
                ("mediaType", anyString (MediaType manifestDesc))]) ();
      Entry (io_ReadAll rc) (Ok manifestBytes);
      Entry (json_Unmarshal manifestBytes) (Ok manifest)]),
    [Entry (ReadCloser_Close rc) closed].
  rewrite Hrun. split; [done|]. split.
  { cbn. by rewrite <- !app_assoc. }
  unfold printed, table. rewrite !omap_app.
  unfold printed, table in Hlp, Hlt. rewrite Hlp, Hlt. done.
Qed.

(** C8: when the manifest that was fetched and parsed has no layers,
    RunInspect returns nil, the last thing it prints is the message that
    no ResourceGraphDefinitions were found, and it writes no table. *)
Theorem C8_zero_layers_reports_none_found
  {W} (h : handler W) w opts e manifest :
  e ∈ trace_of (run h (RunInspect opts) w) ->
  parsedManifest e = Some manifest ->
  Layers manifest = [] ->
  result_of (run h (RunInspect opts) w) = None /\
  last (printed (trace_of (run h (RunInspect opts) w))) = Some noDefinitionsFound /\
  table (trace_of (run h (RunInspect opts) w)) = [].
Proof.
  intros He Hp Hl.
  destruct (RunInspect_parsed h opts w e manifest He Hp)
    as (repo & manifestDesc & w1 & pre & post & -> & -> & Hpp & Htp & Hpo & Hto).
  destruct (report_run h repo manifestDesc manifest w1)
    as (Hr & _ & [w' Hpr] & Ht & _).
  rewrite Hl in Hpr, Ht. cbn [length Nat.eqb] in Hpr, Ht.
  split; [done|]. split.
  - unfold printed in *. rewrite !omap_app, Hpp, Hpo, Hpr, app_nil_r, app_nil_l.
    rewrite app_assoc. apply last_snoc.
  - unfold table in *. by rewrite !omap_app, Htp, Hto, Ht.
Qed.

Lemma C8_witness :
  result_of (run Demo.handle (RunInspect (Demo.inspect "ghcr.io/acme/empty:v1")) "")
    = None /\
  last (printed (trace_of
    (run Demo.handle (RunInspect (Demo.inspect "ghcr.io/acme/empty:v1")) "")))
    = Some noDefinitionsFound /\
  table (trace_of
    (run Demo.handle (RunInspect (Demo.inspect "ghcr.io/acme/empty:v1")) "")) = [].
Proof.
  apply (C8_zero_layers_reports_none_found Demo.handle ""
           (Demo.inspect "ghcr.io/acme/empty:v1")
           (Demo.parsedEntry "ghcr.io/acme/empty:v1" Demo.emptyManifest)
           Demo.emptyManifest).
  - apply (list_elem_of_lookup_2 _ 6). reflexivity.
  - reflexivity.
  - reflexivity.
Defined.

(** C9: when the config of the parsed manifest has no creation timestamp,
    or has one that [time.Parse] rejects, RunInspect returns nil and
    prints the header and then the layer section, with no Created line
    and nothing else in between. *)
Theorem C9_missing_or_malformed_timestamp_is_skipped
  {W} (h : handler W) w opts e manifest :
  e ∈ trace_of (run h (RunInspect opts) w) ->
  parsedManifest e = Some manifest ->
  createdMissingOrMalformed h manifest ->
  result_of (run h (RunInspect opts) w) = None /\
  (exists repo manifestDesc,
     printed (trace_of (run h (RunInspect opts) w)) =
       reportHeader repo manifestDesc ++
       [if Nat.eqb (length (Layers manifest)) 0
        then noDefinitionsFound else definitionsHeading]) /\
  Forall (fun text => HasPrefix text "Created:" = false)
    (printed (trace_of (run h (RunInspect opts) w))).
Proof.
  intros He Hp Hc.
  destruct (RunInspect_parsed h opts w e manifest He Hp)
    as (repo & manifestDesc & w1 & pre & post & -> & -> & Hpp & Htp & Hpo & Hto).
  destruct (report_run h repo manifestDesc manifest w1)
    as (Hr & _ & [w' Hpr] & _ & _).
  destruct (printCreated_run h manifest w') as (_ & _ & Hskip).
  rewrite (Hskip Hc) in Hpr. cbn [app] in Hpr.
  assert (Hprinted :
    printed (pre ++ trace_of (run h (report repo manifestDesc manifest) w1) ++ post) =
      reportHeader repo manifestDesc ++
      [if Nat.eqb (length (Layers manifest)) 0
       then noDefinitionsFound else definitionsHeading]).
  { unfold printed in *. by rewrite !omap_app, Hpp, Hpo, Hpr, app_nil_r. }
  split; [done|]. split; [by exists repo, manifestDesc|].
  rewrite Hprinted. unfold reportHeader.
  repeat (constructor; [done|]).
  constructor; [|done]. by destruct (Nat.eqb (length (Layers manifest)) 0).
Qed.

Lemma C9_witness :
  result_of (run Demo.handle (RunInspect (Demo.inspect "ghcr.io/acme/undated:v1")) "")
    = None /\
  (exists repo manifestDesc,
     printed (trace_of
       (run Demo.handle (RunInspect (Demo.inspect "ghcr.io/acme/undated:v1")) "")) =
       reportHeader repo manifestDesc ++
       [if Nat.eqb (length (Layers Demo.undatedManifest)) 0
        then noDefinitionsFound else definitionsHeading]) /\
  Forall (fun text => HasPrefix text "Created:" = false)
    (printed (trace_of
       (run Demo.handle (RunInspect (Demo.inspect "ghcr.io/acme/undated:v1")) ""))).
Proof.
  apply (C9_missing_or_malformed_timestamp_is_skipped Demo.handle ""
           (Demo.inspect "ghcr.io/acme/undated:v1")
           (Demo.parsedEntry "ghcr.io/acme/undated:v1" Demo.undatedManifest)
           Demo.undatedManifest).
  - apply (list_elem_of_lookup_2 _ 6). reflexivity.
  - reflexivity.
  - right. exists "yesterday". split; [reflexivity|]. intros w. reflexivity.
Defined.

(** C10: a layer of the parsed manifest without a title annotation, or
    without annotations, gets a row of its own in the table, with the
    name "unknown" and its digest: the table is the header and one row per
    layer, in order, it is flushed, and RunInspect returns nil. *)
Theorem C10_untitled_layer_is_listed_as_unknown
  {W} (h : handler W) w opts e manifest (i : nat) layer :
  e ∈ trace_of (run h (RunInspect opts) w) ->
  parsedManifest e = Some manifest ->
  Layers manifest !! i = Some layer ->
  titleAnnotation layer = None ->
  result_of (run h (RunInspect opts) w) = None /\
  table (trace_of (run h (RunInspect opts) w)) =
    tableHeader :: (rowOf <$> Layers manifest) /\
  table (trace_of (run h (RunInspect opts) w)) !! (S i) =
    Some ("unknown" +:+ tab +:+ Digest layer +:+ nl) /\
  (KFlush ∈ kinds (trace_of (run h (RunInspect opts) w))).
Proof.
  intros He Hp Hi Ht.
  destruct (RunInspect_parsed h opts w e manifest He Hp)
    as (repo & manifestDesc & w1 & pre & post & -> & -> & Hpp & Htp & Hpo & Hto).
  destruct (report_run h repo manifestDesc manifest w1)
    as (Hr & _ & _ & Htab & Hflush).
  assert (Hne : Nat.eqb (length (Layers manifest)) 0 = false).
  { destruct (Layers manifest); [done|]. done. }
  rewrite Hne in Htab. specialize (Hflush Hne).
  assert (Htable :
    table (pre ++ trace_of (run h (report repo manifestDesc manifest) w1) ++ post) =
      tableHeader :: (rowOf <$> Layers manifest)).
  { unfold table in *. by rewrite !omap_app, Htp, Hto, Htab, app_nil_r. }
  split; [done|]. split; [done|]. split.
  - rewrite Htable.
    etrans; [exact (list_lookup_fmap rowOf (Layers manifest) i)|].
    rewrite Hi. cbn. unfold rowOf. by rewrite (layerName_unknown layer Ht).
  - rewrite !kinds_app, !elem_of_app. right. left.
    destruct (kinds (trace_of (run h (report repo manifestDesc manifest) w1)))
      as [|k ks] using rev_ind; [done|].
    rewrite last_snoc in Hflush. injection Hflush as ->.
    rewrite elem_of_app, list_elem_of_singleton. by right.
Qed.

Lemma C10_witness :
  result_of (run Demo.handle (RunInspect (Demo.inspect "ghcr.io/acme/stack:v1")) "")
    = None /\
  table (trace_of
    (run Demo.handle (RunInspect (Demo.inspect "ghcr.io/acme/stack:v1")) "")) =
    tableHeader :: (rowOf <$> Layers Demo.stackManifest) /\
  table (trace_of
    (run Demo.handle (RunInspect (Demo.inspect "ghcr.io/acme/stack:v1")) "")) !! 2 =
    Some ("unknown" +:+ tab +:+ "sha256:untitled" +:+ nl) /\
  (KFlush ∈ kinds (trace_of
    (run Demo.handle (RunInspect (Demo.inspect "ghcr.io/acme/stack:v1")) ""))).
Proof.
  apply (C10_untitled_layer_is_listed_as_unknown Demo.handle ""
           (Demo.inspect "ghcr.io/acme/stack:v1")
           (Demo.parsedEntry "ghcr.io/acme/stack:v1" Demo.stackManifest)
           Demo.stackManifest 1 Demo.untitled).
  - apply (list_elem_of_lookup_2 _ 6). reflexivity.
  - reflexivity.
  - reflexivity.
  - reflexivity.
Defined.

(** The inspect report of the demo artifact with two layers: the row of
    the titled layer and the row of the untitled one. *)
Example RunInspect_table :
  table (trace_of
    (run Demo.handle (RunInspect (Demo.inspect "ghcr.io/acme/stack:v1")) "")) =
    ["Name" +:+ tab +:+ "Digest" +:+ nl;
     "vpc.yaml" +:+ tab +:+ "sha256:vpc.yaml" +:+ nl;
     "unknown" +:+ tab +:+ "sha256:untitled" +:+ nl] /\
  printed (trace_of
    (run Demo.handle (RunInspect (Demo.inspect "ghcr.io/acme/stack:v1")) "")) =
    ["Artifact:  acme/stack:v1" +:+ nl;
     "Registry:  ghcr.io" +:+ nl;
     "Digest:    sha256:manifest" +:+ nl;
     "Created:   2025-01-02T03:04:05Z" +:+ nl;
     nl +:+ "ResourceGraphDefinitions:" +:+ nl].
Proof. split; reflexivity. Qed.

(** ** More on the file collector *)

Lemma firstError_dir entries :
  firstError (dir entries) = firstErrorEntries entries.
Proof. reflexivity. Qed.

(** Whatever the walk meets, what it has collected when it returns are
    YAML paths of entries that are not directories. *)
Lemma walk_collectFn_sound t :
  forall path p,
    p ∈ (walk path t collectFn []).1 ->
    p ∈ walkedFiles path t /\ isYAML p = true.
Proof.
  induction t as [err| |err|entries IH] using tree_entries_ind; intros path p.
  - cbn. by intros ?%elem_of_nil.
  - cbn. destruct (isYAML path) eqn:Hy; cbn.
    + intros ->%list_elem_of_singleton. split; [by left|done].
    + by intros ?%elem_of_nil.
  - cbn. by intros ?%elem_of_nil.
  - rewrite walk_dir, walkedFiles_dir. cbn.
    induction IH as [|[filename child] names Hchild _ IHnames].
    + cbn. by intros ?%elem_of_nil.
    + cbn [walkEntries walkedEntries]. cbn in Hchild.
      assert (Hrest : p ∈ (walkEntries collectFn names []).1 ->
                      p ∈ walkedFiles filename child ++ walkedEntries names /\
                      isYAML p = true).
      { intros Hp. destruct (IHnames Hp) as [? ?]. split; [|done].
        apply elem_of_app. by right. }
      assert (Hhere : p ∈ (walk filename child collectFn []).1 ->
                      p ∈ walkedFiles filename child ++ walkedEntries names /\
                      isYAML p = true).
      { intros Hp. destruct (Hchild filename p Hp) as [? ?]. split; [|done].
        apply elem_of_app. by left. }
      assert (Hloop : forall acc,
        walkEntries collectFn names acc =
          (acc ++ (walkEntries collectFn names []).1,
           (walkEntries collectFn names []).2)).
      { intros acc.
        pose proof (walk_collectFn_app (dir names) "" acc) as Ha.
        rewrite !walk_dir in Ha. exact Ha. }
      destruct (walk filename child collectFn []) as [l [e|]] eqn:Hw; cbn in *.
      * destruct child; cbn;
          repeat match goal with
          | |- context [if ?b then _ else _] => destruct b; cbn
          end; try exact Hhere;
          rewrite Hloop; cbn; intros [?|?]%elem_of_app; auto.
      * rewrite Hloop. cbn. intros [?|?]%elem_of_app; auto.
Qed.

(** X1: nothing else gets into the collected list: every collected path
    is an argument that is not a directory, or a path with a YAML
    extension that the walk of a directory argument visits as an entry that
    is not a directory. *)
Theorem collected_files_are_named_or_walked_yaml fs args files p :
  collectFiles fs args [] = Ok files ->
  p ∈ files ->
  (p ∈ args /\ os_Stat fs p = Ok {| IsDir := false |}) \/
  (isYAML p = true /\
   exists d, d ∈ args /\ os_Stat fs d = Ok {| IsDir := true |} /\
             p ∈ walkedFiles d (os_Lstat_tree fs d)).
Proof.
  revert files. induction args as [|a rest IH]; intros files Hc Hp.
  - injection Hc as <-. by apply elem_of_nil in Hp.
  - apply (collectFiles_split fs [] a rest) in Hc
      as (before & part & after & Hb & Ha & Hr & ->).
    injection Hb as <-. cbn in Hp. apply elem_of_app in Hp as [Hp|Hp].
    + cbn in Ha. destruct (os_Stat fs a) as [[[]]|] eqn:Hs; cbn in Ha; [| |done].
      * right. unfold filepath_Walk in Ha.
        pose proof (walk_collectFn_sound (os_Lstat_tree fs a) a p) as Hsound.
        destruct (walk a (os_Lstat_tree fs a) collectFn []) as [l [e|]];
          [destruct (isSkipDir e || isSkipAll e); [|done]|];
          injection Ha as <-; destruct (Hsound Hp) as [? ?];
          (split; [done|]); exists a; (split; [by left|done]).
      * injection Ha as <-. apply list_elem_of_singleton in Hp as ->.
        left. split; [by left|done].
    + destruct (IH after Hr Hp) as [[? ?]|(? & d & ? & ? & ?)].
      * left. split; [by right|done].
      * right. split; [done|]. exists d. split; [by right|done].
Qed.

Lemma collected_files_are_named_or_walked_yaml_witness :
  ("rgds/vpc.yaml" ∈ ["rgds"; "notes.txt"] /\
   os_Stat Demo.fs "rgds/vpc.yaml" = Ok {| IsDir := false |}) \/
  (isYAML "rgds/vpc.yaml" = true /\
   exists d, d ∈ ["rgds"; "notes.txt"] /\ os_Stat Demo.fs d = Ok {| IsDir := true |} /\
             "rgds/vpc.yaml" ∈ walkedFiles d (os_Lstat_tree Demo.fs d)).
Proof.
  apply (collected_files_are_named_or_walked_yaml Demo.fs ["rgds"; "notes.txt"]
           ["rgds/sub/subnet.yml"; "rgds/vpc.yaml"; "notes.txt"]).
  - reflexivity.
  - apply (list_elem_of_lookup_2 _ 1). reflexivity.
Defined.

(** The walk stops at the first entry that cannot be read and returns
    its error, unless that error is Walk's own [SkipDir]. *)
Lemma walk_collectFn_firstError t :
  forall path allFiles,
    match firstError t with
    | Some err =>
        isSkipDir err = false ->
        (walk path t collectFn allFiles).2 = Some err
    | None => (walk path t collectFn allFiles).2 = None
    end.
Proof.
  induction t as [err| |err|entries IH] using tree_entries_ind;
    intros path allFiles.
  - done.
  - cbn. by destruct (isYAML path).
  - done.
  - rewrite firstError_dir, walk_dir. cbn.
    revert allFiles.
    induction IH as [|[filename child] names Hchild _ IHnames]; intros acc.
    + done.
    + cbn [firstErrorEntries walkEntries]. cbn in Hchild.
      specialize (Hchild filename acc).
      destruct (walk filename child collectFn acc) as [l e] eqn:Hw. cbn in Hchild.
      destruct (firstError child) as [err|].
      * intros Hskip. rewrite (Hchild Hskip).
        destruct child; cbn; rewrite ?Hskip; cbn; try done.
      * rewrite Hchild. apply IHnames.
Qed.

(** X2: when a directory argument has an entry that cannot be read,
    RunPush fails without a call to any collaborator, and its error is the
    failed-to-walk error of that directory around the error of the first
    such entry in the order of the walk (for an error that is not one of
    Walk's own sentinels, and when the arguments before the directory
    were collected). *)
Theorem unreadable_entry_fails_the_push
  {W} (h : handler W) w fs opts pre d post err :
  Filenames opts = pre ++ d :: post ->
  isOk (collectFiles fs pre []) = true ->
  os_Stat fs d = Ok {| IsDir := true |} ->
  firstError (os_Lstat_tree fs d) = Some err ->
  isSkipDir err = false -> isSkipAll err = false ->
  run h (RunPush fs opts) w =
    (Some (Errorf_w ("failed to walk directory " +:+ d +:+ ": ") err), w, []).
Proof.
  intros HF Hpre Hs Hfirst Hsd Hsa.
  assert (Hc : collectFiles fs (pre ++ d :: post) [] =
                 Err (Errorf_w ("failed to walk directory " +:+ d +:+ ": ") err)).
  { rewrite collectFiles_app.
    destruct (collectFiles fs pre []) as [before|]; [|done].
    cbn [collectFiles]. rewrite Hs. cbn [IsDir]. unfold filepath_Walk.
    pose proof (walk_collectFn_firstError (os_Lstat_tree fs d) d []) as Hw.
    rewrite Hfirst in Hw. specialize (Hw Hsd).
    destruct (walk d (os_Lstat_tree fs d) collectFn []) as [l e].
    cbn in Hw. subst e. by rewrite Hsd, Hsa. }
  unfold RunPush. rewrite HF, Hc.
  by destruct pre.
Qed.

Lemma unreadable_entry_fails_the_push_witness :
  run Demo.handle (RunPush Demo.fs (Demo.push ["stack.yaml"; "locked"; "rgds"])) "" =
    (Some (Errorf_w ("failed to walk directory " +:+ "locked" +:+ ": ")
             (Demo.permissionDenied "locked")), "", []).
Proof.
  apply (unreadable_entry_fails_the_push Demo.handle "" Demo.fs
           (Demo.push ["stack.yaml"; "locked"; "rgds"])
           ["stack.yaml"] "locked" ["rgds"]); reflexivity.
Defined.

Lemma Ext_no_separator_or_dot s : hasSeparatorOrDot s = false -> Ext s = "".
Proof.
  induction s as [|c s IH]; [done|]. cbn.
  intros [[? ?]%orb_false_elim Hs]%orb_false_elim.
  rewrite Hs. unfold isDot in *. by destruct (Ascii.eqb c "."%char).
Qed.

Lemma Ext_append prefix s :
  hasSeparatorOrDot s = true -> Ext (prefix +:+ s) = Ext s.
Proof.
  intros Hs. induction prefix as [|c prefix IH]; [done|].
  rewrite append_String. cbn [Ext].
  assert (hasSeparatorOrDot (prefix +:+ s) = true) as ->; [|done].
  clear IH. induction prefix as [|c' prefix IH]; [done|].
  rewrite append_String. cbn. rewrite IH. by rewrite orb_true_r.
Qed.

(** X3: whether a path is taken as YAML depends on its last element
    only: for a name below a directory, the test on the joined path is
    the test on the name, whatever the directory is called. *)
Theorem yaml_test_reads_the_last_element dir name :
  isYAML (dir +:+ "/" +:+ name) = isYAML name /\
  Ext (dir +:+ "/" +:+ name) = Ext name.
Proof.
  assert (Ext (dir +:+ "/" +:+ name) = Ext name) as HE.
  { rewrite Ext_append; [|done].
    change ("/" +:+ name) with (String "/" name). cbn [Ext].
    destruct (hasSeparatorOrDot name) eqn:Hn; [done|].
    cbn. by rewrite Ext_no_separator_or_dot. }
  split; [|done]. unfold isYAML. by rewrite HE.
Qed.

(** ** More on RunPush *)

Lemma omap_none {A} (obs : entry -> option A) (ks : list kind) tr :
  (forall e, ekind e ∈ ks -> obs e = None) ->
  Forall (fun e => ekind e ∈ ks) tr ->
  omap obs tr = [].
Proof.
  intros Hobs. induction 1 as [|e tr He _ IH]; [done|].
  cbn. rewrite (Hobs e He). exact IH.
Qed.

Lemma Forall_kinds_weaken (ks ks' : list kind) tr :
  (forall k, k ∈ ks -> k ∈ ks') ->
  Forall (fun e => ekind e ∈ ks) tr -> Forall (fun e => ekind e ∈ ks') tr.
Proof.
  intros Hk HF. eapply Forall_impl; [exact HF|]. intros e. apply Hk.
Qed.

(** Decides the membership of a kind in a list of kinds. *)
Ltac kind_in := apply (bool_decide_unpack _); reflexivity.

(** Closes the case of an observer on an entry whose kind it does not
    look at. *)
Ltac other_kind :=
  let Hk := fresh in
  intros [? [] ?] Hk; try done;
  exfalso; apply list_elem_of_In in Hk; cbn in Hk; intuition discriminate.

(** Steps through a command, call by call, into the cases of its run. *)
Ltac through h :=
  repeat first
    [ match goal with
      | |- context [h ?X ?c ?w] =>
          let x := fresh "x" in
          let w' := fresh "w" in
          destruct (h X c w) as [x w'] eqn:?;
          try match type of x with
              | result (_ * _) => destruct x as [[? ?]|?]
              | result _ => destruct x
              | option _ => destruct x
              | unit => destruct x
              end;
          cbn
      end
    | progress binds
    | rewrite run_bind, SetupRepository_run; cbn
    | match goal with
      | |- context [run h (if ?b then _ else _) _] => destruct b eqn:?; cbn
      | |- context [bind (if ?b then _ else _) _] => destruct b eqn:?; cbn
      end ].

(** The staging loop calls Add for the files in order, each under its
    base name and with the layer media type, up to the first failure;
    the layers it returns are the descriptors that the Adds returned. *)
Lemma stageFiles_calls {W} (h : handler W) store files :
  forall layers w,
    Forall (fun e => ekind e ∈ stagingKinds)
      (trace_of (run h (stageFiles store files layers) w)) /\
    omap addCall (trace_of (run h (stageFiles store files layers) w))
      `prefix_of` ((fun f => (store, Base f, LayerMediaType, f)) <$> files) /\
    match result_of (run h (stageFiles store files layers) w) with
    | Ok layers' =>
        omap addCall (trace_of (run h (stageFiles store files layers) w)) =
          (fun f => (store, Base f, LayerMediaType, f)) <$> files /\
        layers' = layers ++
          omap addedLayer (trace_of (run h (stageFiles store files layers) w)) /\
        length (omap addedLayer (trace_of (run h (stageFiles store files layers) w)))
          = length files
    | Err _ => True
    end.
Proof.
  unfold result_of, trace_of.
  induction files as [|file rest IH]; intros layers w; cbn.
  - split; [done|]. split; [done|]. by rewrite app_nil_r.
  - reply h as [desc|err] w1.
    + reply h as [] w2.
      specialize (IH (layers ++ [desc]) w2).
      destruct (run h (stageFiles store rest (layers ++ [desc])) w2)
        as [[r w3] tr]; cbn in *.
      destruct IH as (Hk & Hpre & Hr). split; [|split].
      * constructor; [kind_in|]. constructor; [kind_in|]. done.
      * by apply prefix_cons.
      * destruct r as [layers'|]; [|done].
        destruct Hr as (Hc & -> & Hlen). split; [by f_equal|].
        split; [by rewrite <- app_assoc|]. by f_equal.
    + split; [constructor; [kind_in|done]|]. split; [|done].
      apply prefix_cons, prefix_nil.
Qed.

(** What pushing the staged layers calls, apart from the order. *)
Lemma pushLayers_kinds {W} (h : handler W) opts store allFiles layers w :
  Forall (fun e => ekind e ∈ pushingKinds)
    (trace_of (run h (pushLayers opts store allFiles layers) w)) /\
  omap packCall (trace_of (run h (pushLayers opts store allFiles layers) w)) =
    [(store, PackManifestVersion1_1, ArtifactType, layers)].
Proof.
  unfold trace_of, pushLayers. cbn. through h;
    (split; [repeat (constructor; [kind_in|]); done|done]).
Qed.

(** How pushing the staged layers ends: with nil after a Copy that went
    through, the summary printed; or with a wrapped error, no Copy gone
    through and nothing printed. *)
Lemma pushLayers_result {W} (h : handler W) opts store allFiles layers w :
  match result_of (run h (pushLayers opts store allFiles layers) w) with
  | None =>
      exists manifestDesc,
        omap packedManifest
          (trace_of (run h (pushLayers opts store allFiles layers) w)) = [manifestDesc] /\
        Exists (fun e => copied e = true)
          (trace_of (run h (pushLayers opts store allFiles layers) w)) /\
        printed (trace_of (run h (pushLayers opts store allFiles layers) w)) =
          pushSummary allFiles (Push_Reference opts) manifestDesc
  | Some err =>
      (exists prefix inner, err = Errorf_w prefix inner) /\
      Forall (fun e => copied e = false)
        (trace_of (run h (pushLayers opts store allFiles layers) w)) /\
      printed (trace_of (run h (pushLayers opts store allFiles layers) w)) = []
  end.
Proof.
  unfold result_of, trace_of, pushLayers. cbn. through h;
    first
      [ split; [by eexists _, _|]; split; [by repeat constructor|done]
      | eexists; split; [done|]; split; [|done];
        repeat first [by apply Exists_cons_hd | apply Exists_cons_tl] ].
Qed.


(** A run of RunPush ends before the store is created, with no call
    made; or at the creation of the store, which failed; or it is the
    staging of the collected files in the store that was created, the
    pushing of the layers if they were all staged, and the closing of the
    store. *)
Lemma RunPush_cases {W} (h : handler W) fs opts w :
  (exists e,
     run h (RunPush fs opts) w = (Some e, w, []) /\
     (e = noFilesSpecified \/ e = noYAMLFilesFound \/
      collectFiles fs (Filenames opts) [] = Err e)) \/
  (exists allFiles logged err w1,
     collectFiles fs (Filenames opts) [] = Ok allFiles /\
     ekind logged = KLog /\
     run h (RunPush fs opts) w =
       (Some (Errorf_w "failed to create file store: " err), w1,
        [logged; Entry (file_New "") (Err err)])) \/
  (exists allFiles logged store w1 staged w2 trs ret w3 trp closed w4,
     collectFiles fs (Filenames opts) [] = Ok allFiles /\
     ekind logged = KLog /\
     run h (stageFiles store allFiles []) w1 = (staged, w2, trs) /\
     match staged with
     | Ok layers => run h (pushLayers opts store allFiles layers) w2 = (ret, w3, trp)
     | Err e => ret = Some e /\ trp = []
     end /\
     run h (RunPush fs opts) w =
       (ret, w4,
        logged :: Entry (file_New "") (Ok store) ::
          (trs ++ trp) ++ [Entry (Store_Close store) closed])).
Proof.
  unfold RunPush.
  destruct (Nat.eqb (length (Filenames opts)) 0); [left; eexists; eauto|].
  destruct (collectFiles fs (Filenames opts) []) as [allFiles|e];
    [|left; eexists; eauto].
  destruct (Nat.eqb (length allFiles) 0); [left; eexists; eauto|].
  right. cbn. reply h as [] w0. reply h as [store|err] w1.
  2: { left.
       by exists allFiles,
         (Entry (Logger_Info "Preparing to push RGD stack"
                   [("reference", anyString (Push_Reference opts));
                    ("files", anyInt (length allFiles))]) ()), err, w1. }
  set (logged := Entry (Logger_Info "Preparing to push RGD stack"
                   [("reference", anyString (Push_Reference opts));
                    ("files", anyInt (length allFiles))]) ()).
  right. rewrite run_defer. binds. rewrite run_bind.
  destruct (run h (stageFiles store allFiles []) w1) as [[staged w2] trs] eqn:Hs.
  destruct staged as [layers|e]; cbn.
  - destruct (run h (pushLayers opts store allFiles layers) w2)
      as [[ret w3] trp] eqn:Hp.
    cbn. reply h as closed w4.
    by exists allFiles, logged, store, w1, (Ok layers), w2, trs, ret, w3, trp, closed, w4.
  - reply h as closed w4.
    by exists allFiles, logged, store, w1, (Err e), w2, trs, (Some e), w2, [], closed, w4.
Qed.

Lemma copied_kind e : copied e = true -> ekind e = KCopy.
Proof. destruct e as [X c x]. by destruct c. Qed.

Lemma not_copied (ks : list kind) tr :
  KCopy ∉ ks -> Forall (fun e => ekind e ∈ ks) tr ->
  Forall (fun e => copied e = false) tr.
Proof.
  intros Hk HF. eapply Forall_impl; [exact HF|]. intros e He.
  destruct (copied e) eqn:Hc; [|done]. apply copied_kind in Hc. congruence.
Qed.

(** X4: the store is a scoped resource.  In every run of RunPush, a store
    that [file.New] returned is closed, once, by the last call of the
    run, whether the run fails or not; a run in which no store was
    created closes none. *)
Theorem RunPush_closes_the_store_it_created {W} (h : handler W) w fs opts :
  omap closedStore (trace_of (run h (RunPush fs opts) w)) =
    omap createdStore (trace_of (run h (RunPush fs opts) w)) /\
  length (omap createdStore (trace_of (run h (RunPush fs opts) w))) <= 1 /\
  (forall store,
     store ∈ omap createdStore (trace_of (run h (RunPush fs opts) w)) ->
     exists e, last (trace_of (run h (RunPush fs opts) w)) = Some e /\
               closedStore e = Some store).
Proof.
  destruct (RunPush_cases h fs opts w)
    as [(e & -> & _)|[(allFiles & [X [] x] & err & w1 & _ & Hl & ->)|
        (allFiles & [X [] x] & store & w1 & staged & w2 & trs & ret & w3 & trp
           & closed & w4 & _ & Hl & Hs & Hp & ->)]]; try discriminate Hl.
  1-3: cbn; (split; [done|]); (split; [lia|]); by intros ? ?%elem_of_nil.
  all: pose proof (stageFiles_calls h store allFiles [] w1) as (Hks & _);
    rewrite Hs in Hks; cbn in Hks;
    assert (Hkp : Forall (fun e => ekind e ∈ pushingKinds) trp)
      by (destruct staged as [layers|]; [|by destruct Hp as [_ ->]];
          pose proof (pushLayers_kinds h opts store allFiles layers w2) as [Hk _];
          by rewrite Hp in Hk);
    unfold trace_of; cbn [snd]; cbn; rewrite !omap_app; cbn;
    rewrite (omap_none closedStore stagingKinds trs ltac:(other_kind) Hks),
      (omap_none createdStore stagingKinds trs ltac:(other_kind) Hks),
      (omap_none closedStore pushingKinds trp ltac:(other_kind) Hkp),
      (omap_none createdStore pushingKinds trp ltac:(other_kind) Hkp);
    cbn; (split; [done|]); (split; [lia|]);
    intros store' ->%list_elem_of_singleton;
    eexists; (split; [rewrite !app_comm_cons; apply last_snoc|done]).
Qed.

(** What the observers see in a run that created the store: the Adds are
    those of the staging, everything else is that of the pushing. *)
Lemma RunPush_trace_parts logged store trs trp closed :
  ekind logged = KLog ->
  Forall (fun e => ekind e ∈ stagingKinds) trs ->
  Forall (fun e => ekind e ∈ pushingKinds) trp ->
  let tr := logged :: Entry (file_New "") (Ok store) ::
              (trs ++ trp) ++ [Entry (Store_Close store) closed] in
  omap createdStore tr = [store] /\
  omap addCall tr = omap addCall trs /\
  omap addedLayer tr = omap addedLayer trs /\
  omap packCall tr = omap packCall trp /\
  omap packedManifest tr = omap packedManifest trp /\
  omap tagCall tr = omap tagCall trp /\
  omap copyCall tr = omap copyCall trp /\
  printed tr = printed trp /\
  (Exists (fun e => copied e = true) tr <-> Exists (fun e => copied e = true) trp).
Proof.
  intros Hl Hks Hkp. destruct logged as [X [] x]; try discriminate Hl.
  all: cbn; unfold printed; rewrite !omap_app; cbn;
    rewrite (omap_none createdStore stagingKinds trs ltac:(other_kind) Hks),
      (omap_none createdStore pushingKinds trp ltac:(other_kind) Hkp),
      (omap_none addCall pushingKinds trp ltac:(other_kind) Hkp),
      (omap_none addedLayer pushingKinds trp ltac:(other_kind) Hkp),
      (omap_none packCall stagingKinds trs ltac:(other_kind) Hks),
      (omap_none packedManifest stagingKinds trs ltac:(other_kind) Hks),
      (omap_none tagCall stagingKinds trs ltac:(other_kind) Hks),
      (omap_none copyCall stagingKinds trs ltac:(other_kind) Hks),
      (omap_none printedText stagingKinds trs ltac:(other_kind) Hks);
    rewrite ?app_nil_r; cbn; repeat (split; [done|]);
    rewrite !Exists_cons, !Exists_app, Exists_cons, Exists_nil;
    pose proof (not_copied stagingKinds trs ltac:(by intros ?%list_elem_of_In; cbn in *; intuition discriminate) Hks) as Hnc;
    (split; [intros [?|[?|[[Hex|?]|[?|[]]]]]; try done;
             apply Exists_exists in Hex as (e & He & Hc);
             rewrite Forall_forall in Hnc; specialize (Hnc e He); congruence
            |auto]).
Qed.

(** The staging and the pushing of a run that created the store, with
    what is known of their calls. *)
Ltac push_parts h Hs Hp Hks Hkp :=
  match type of Hs with
  | run h (stageFiles ?store ?allFiles []) ?w1 = (?staged, ?w2, ?trs) =>
      pose proof (stageFiles_calls h store allFiles [] w1) as Hks;
      rewrite Hs in Hks; unfold result_of, trace_of in Hks; cbn in Hks;
      match type of Hp with
      | context [_ = (?ret, _, ?trp)] =>
          assert (Hkp : Forall (fun e => ekind e ∈ pushingKinds) trp)
            by (destruct staged as [?layers|]; [|by destruct Hp as [_ ->]];
                match type of Hp with
                | run h (pushLayers ?opts _ _ ?layers) _ = _ =>
                    let Hk := fresh in
                    pose proof (pushLayers_kinds h opts store allFiles layers w2)
                      as [Hk _];
                    by rewrite Hp in Hk
                end)
      | _ /\ ?trp = [] =>
          assert (Hkp : Forall (fun e => ekind e ∈ pushingKinds) trp)
            by (destruct Hp as [_ ->]; constructor)
      end
  end.

(** X5: one layer per file.  Where a run of RunPush packs a manifest, the
    Adds before it are those of the collected files, in order, each into
    the created store under the base name of the file and with the layer
    media type; the manifest is packed once, in that store, as version
    1.1 with the artifact type of kro, and its layers are the descriptors
    that the Adds returned, as many as there are files. *)
Theorem RunPush_packs_one_layer_per_file {W} (h : handler W) w fs opts call :
  call ∈ omap packCall (trace_of (run h (RunPush fs opts) w)) ->
  exists allFiles store,
    collectFiles fs (Filenames opts) [] = Ok allFiles /\
    omap createdStore (trace_of (run h (RunPush fs opts) w)) = [store] /\
    omap addCall (trace_of (run h (RunPush fs opts) w)) =
      (fun f => (store, Base f, LayerMediaType, f)) <$> allFiles /\
    omap packCall (trace_of (run h (RunPush fs opts) w)) = [call] /\
    call = (store, PackManifestVersion1_1, ArtifactType,
            omap addedLayer (trace_of (run h (RunPush fs opts) w))) /\
    length (omap addedLayer (trace_of (run h (RunPush fs opts) w)))
      = length allFiles.
Proof.
  destruct (RunPush_cases h fs opts w)
    as [(e & -> & _)|[(allFiles & [X [] x] & err & w1 & _ & Hl & ->)|
        (allFiles & logged & store & w1 & staged & w2 & trs & ret & w3 & trp
           & closed & w4 & Hc & Hl & Hs & Hp & ->)]]; try discriminate Hl.
  1-3: by intros ?%elem_of_nil.
  push_parts h Hs Hp Hks Hkp. destruct Hks as (Hks & _ & Hstaged).
  unfold trace_of. cbn [snd].
  destruct (RunPush_trace_parts logged store trs trp closed Hl Hks Hkp)
    as (-> & -> & -> & -> & _).
  destruct staged as [layers|].
  - pose proof (pushLayers_kinds h opts store allFiles layers w2) as [_ Hpack].
    rewrite Hp in Hpack. cbn in Hpack. rewrite Hpack.
    destruct Hstaged as (Hadd & -> & Hlen).
    intros ->%list_elem_of_singleton. by exists allFiles, store.
  - destruct Hp as [_ ->]. by intros ?%elem_of_nil.
Qed.

Lemma RunPush_packs_one_layer_per_file_witness :
  exists allFiles store,
    collectFiles Demo.fs ["stack.yaml"; "rgds"] [] = Ok allFiles /\
    omap createdStore (trace_of
      (run Demo.handle (RunPush Demo.fs (Demo.push ["stack.yaml"; "rgds"])) "")) = [store] /\
    omap addCall (trace_of
      (run Demo.handle (RunPush Demo.fs (Demo.push ["stack.yaml"; "rgds"])) "")) =
      (fun f => (store, Base f, LayerMediaType, f)) <$> allFiles /\
    omap packCall (trace_of
      (run Demo.handle (RunPush Demo.fs (Demo.push ["stack.yaml"; "rgds"])) "")) =
      [(fileStore 0, PackManifestVersion1_1, ArtifactType,
        [Demo.layerOf "stack.yaml" LayerMediaType;
         Demo.layerOf "subnet.yml" LayerMediaType;
         Demo.layerOf "vpc.yaml" LayerMediaType])] /\
    (fileStore 0, PackManifestVersion1_1, ArtifactType,
        [Demo.layerOf "stack.yaml" LayerMediaType;
         Demo.layerOf "subnet.yml" LayerMediaType;
         Demo.layerOf "vpc.yaml" LayerMediaType]) =
      (store, PackManifestVersion1_1, ArtifactType,
       omap addedLayer (trace_of
         (run Demo.handle (RunPush Demo.fs (Demo.push ["stack.yaml"; "rgds"])) ""))) /\
    length (omap addedLayer (trace_of
      (run Demo.handle (RunPush Demo.fs (Demo.push ["stack.yaml"; "rgds"])) "")))
      = length allFiles.
Proof.
  apply (RunPush_packs_one_layer_per_file Demo.handle "" Demo.fs
           (Demo.push ["stack.yaml"; "rgds"])).
  apply (list_elem_of_lookup_2 _ 0). reflexivity.
Defined.

(** X6: RunPush returns nil exactly when a Copy to the registry went
    through: no failure before the Copy is passed over, and nothing after
    a Copy that went through can fail. *)
Theorem RunPush_succeeds_iff_copied {W} (h : handler W) w fs opts :
  result_of (run h (RunPush fs opts) w) = None <->
  Exists (fun e => copied e = true) (trace_of (run h (RunPush fs opts) w)).
Proof.
  destruct (RunPush_cases h fs opts w)
    as [(e & -> & _)|[(allFiles & [X [] x] & err & w1 & _ & Hl & ->)|
        (allFiles & logged & store & w1 & staged & w2 & trs & ret & w3 & trp
           & closed & w4 & Hc & Hl & Hs & Hp & ->)]]; try discriminate Hl.
  1-3: unfold result_of, trace_of; cbn; (split; [done|]); intros Hex;
    repeat (apply Exists_cons in Hex as [Hex|Hex]; [done|]);
    by apply Exists_nil in Hex.
  push_parts h Hs Hp Hks Hkp. destruct Hks as (Hks & _).
  unfold result_of, trace_of. cbn [fst snd].
  destruct (RunPush_trace_parts logged store trs trp closed Hl Hks Hkp)
    as (_ & _ & _ & _ & _ & _ & _ & _ & ->).
  destruct staged as [layers|].
  - pose proof (pushLayers_result h opts store allFiles layers w2) as Hr.
    rewrite Hp in Hr. unfold result_of, trace_of in Hr. cbn in Hr.
    destruct ret as [err|].
    + destruct Hr as (_ & Hnc & _). split; [done|]. intros Hex.
      apply Exists_exists in Hex as (e & He & Hce).
      rewrite Forall_forall in Hnc. specialize (Hnc e He). congruence.
    + by destruct Hr as (? & _ & ? & _).
  - destruct Hp as [-> ->]. split; [done|]. by intros ?%Exists_nil.
Qed.

(** X7: RunPush prints for the user only on success, and then the two
    lines of the summary: the number of collected files with the
    reference, and the digest of the manifest that was packed.  A run that
    fails prints nothing. *)
Theorem RunPush_prints_the_summary_on_success_only
  {W} (h : handler W) w fs opts :
  match result_of (run h (RunPush fs opts) w) with
  | None =>
      exists allFiles manifestDesc,
        collectFiles fs (Filenames opts) [] = Ok allFiles /\
        omap packedManifest (trace_of (run h (RunPush fs opts) w)) = [manifestDesc] /\
        printed (trace_of (run h (RunPush fs opts) w)) =
          pushSummary allFiles (Push_Reference opts) manifestDesc
  | Some _ => printed (trace_of (run h (RunPush fs opts) w)) = []
  end.
Proof.
  destruct (RunPush_cases h fs opts w)
    as [(e & -> & _)|[(allFiles & [X [] x] & err & w1 & _ & Hl & ->)|
        (allFiles & logged & store & w1 & staged & w2 & trs & ret & w3 & trp
           & closed & w4 & Hc & Hl & Hs & Hp & ->)]]; try discriminate Hl.
  1-3: done.
  push_parts h Hs Hp Hks Hkp. destruct Hks as (Hks & _).
  unfold result_of, trace_of. cbn [fst snd].
  destruct (RunPush_trace_parts logged store trs trp closed Hl Hks Hkp)
    as (_ & _ & _ & _ & -> & _ & _ & -> & _).
  destruct staged as [layers|].
  - pose proof (pushLayers_result h opts store allFiles layers w2) as Hr.
    rewrite Hp in Hr. unfold result_of, trace_of in Hr. cbn in Hr.
    destruct ret as [err|].
    + by destruct Hr as (_ & _ & ?).
    + destruct Hr as (manifestDesc & ? & _ & ?). by exists allFiles, manifestDesc.
  - by destruct Hp as [-> ->].
Qed.








(** ** More on SetupRepository *)

(** X10: SetupRepository parses the reference first and opens the
    credential store only for a reference that parses.  For an invalid
    reference it returns the invalid-reference error around the parser's
    error after that one call; otherwise it makes the two calls, and the
    repository it returns, if the credential store opens, has the parsed
    reference and a client with that store. *)
Theorem SetupRepository_opens_credentials_for_a_valid_reference_only
  {W} (h : handler W) w reference :
  match (h _ (registry_ParseReference reference) w).1 with
  | Err err =>
      result_of (run h (SetupRepository reference) w) =
        Err (Errorf_w ("invalid reference " +:+ reference +:+ ": ") err) /\
      kinds (trace_of (run h (SetupRepository reference) w)) = [KParseReference]
  | Ok ref =>
      kinds (trace_of (run h (SetupRepository reference) w)) =
        [KParseReference; KCredentials] /\
      match result_of (run h (SetupRepository reference) w) with
      | Ok repo =>
          Repository_Reference repo = ref /\
          exists credStore,
            Client repo = Some {| Credential := credStore |} /\
            Entry credentials_NewStoreFromDocker (Ok credStore)
              ∈ trace_of (run h (SetupRepository reference) w)
      | Err e =>
          exists err, e = Errorf_w "failed to create credential store: " err
      end
  end.
Proof.
  rewrite SetupRepository_run. unfold result_of, trace_of.
  destruct (h _ (registry_ParseReference reference) w) as [[ref|err] w1]; cbn; [|done].
  destruct (h _ credentials_NewStoreFromDocker w1) as [[credStore|err] w2]; cbn.
  - split; [done|]. split; [done|]. exists credStore. split; [done|].
    apply elem_of_cons. right. by apply elem_of_cons; left.
  - split; [done|]. by exists err.
Qed.

(** ** More on RunInspect *)

Lemma printCreated_kinds {W} (h : handler W) manifest w :
  Forall (fun e => ekind e ∈ reportingKinds)
    (trace_of (run h (printCreated manifest) w)).
Proof.
  unfold trace_of, printCreated.
  destruct (Annotations (Config manifest)) as [annotations|]; cbn; [|done].
  destruct (annotations !! AnnotationCreated) as [created|]; cbn; [|done].
  through h; repeat (constructor; [kind_in|]); done.
Qed.

(** The report makes only the calls of reporting. *)
Lemma report_kinds {W} (h : handler W) repo manifestDesc manifest w :
  Forall (fun e => ekind e ∈ reportingKinds)
    (trace_of (run h (report repo manifestDesc manifest) w)).
Proof.
  unfold trace_of, report. cbn.
  reply h as [] w1. reply h as [] w2. reply h as [] w3. binds. rewrite run_bind.
  pose proof (printCreated_kinds h manifest w3) as Hkc. unfold trace_of in Hkc.
  destruct (run h (printCreated manifest) w3) as [[[] w4] trc]. cbn in Hkc.
  destruct (Nat.eqb (length (Layers manifest)) 0); cbn.
  - reply h as [] w5. repeat (constructor; [kind_in|]).
    apply Forall_app. split; [done|]. by repeat (constructor; [kind_in|]).
  - reply h as [] w5. reply h as wr w6. reply h as [] w7. rewrite run_bind.
    pose proof (printLayers_run h wr (Layers manifest) w7) as (_ & _ & Hkl).
    unfold trace_of in Hkl.
    destruct (run h (printLayers wr (Layers manifest)) w7) as [[[] w8] trl].
    cbn in Hkl. cbn. reply h as flushed w9.
    repeat (constructor; [kind_in|]).
    apply Forall_app. split; [done|].
    repeat (constructor; [kind_in|]).
    apply Forall_app. split; [|by repeat (constructor; [kind_in|])].
    eapply Forall_impl; [exact Hkl|]. intros e ->. kind_in.
Qed.

(** Steps through RunInspect into the cases of its run: the failures
    before the report, and the report on the parsed manifest followed by
    the closing of the reader. *)
Ltac inspect_cases h Hrk :=
  unfold result_of, trace_of, RunInspect; cbn;
  repeat first
    [ progress through h
    | rewrite run_defer; cbn
    | match goal with
      | |- context [run h (report ?repo ?d ?m) ?w] =>
          let Hrr := fresh "Hrr" in
          pose proof (report_kinds h repo d m w) as Hrk;
          pose proof (report_run h repo d m w) as (Hrr & _);
          unfold result_of, trace_of in Hrk, Hrr;
          let r := fresh "r" in
          let trr := fresh "trr" in
          destruct (run h (report repo d m) w) as [[r ?] trr];
          cbn in Hrk, Hrr; subst r; cbn
      end ].

(** X11: inspecting is read-only.  Whatever the registry answers, a run
    of RunInspect calls nothing but the logger, the parser of references,
    the credential store, the fetch, the reading and parsing of the
    manifest, the clock, the printers and the closing of the reader: it
    never creates a store, adds a file, packs, tags or copies. *)
Theorem RunInspect_is_read_only {W} (h : handler W) w opts :
  Forall (fun e => ekind e ∈ inspectKinds) (trace_of (run h (RunInspect opts) w)) /\
  (forall k, k ∈ [KNewStore; KCloseStore; KAdd; KPack; KTag; KCopy] ->
             k ∉ kinds (trace_of (run h (RunInspect opts) w))).
Proof.
  assert (HF : Forall (fun e => ekind e ∈ inspectKinds)
                 (trace_of (run h (RunInspect opts) w))).
  { inspect_cases h Hrk;
      repeat (constructor; [kind_in|]); try done;
      (apply Forall_app; split; [|by repeat (constructor; [kind_in|])]);
      (eapply Forall_kinds_weaken; [|exact Hrk]);
      intros k Hk; apply list_elem_of_In in Hk; apply list_elem_of_In;
      cbn in Hk |- *; intuition. }
  split; [done|]. intros k Hk. apply not_elem_of_kinds.
  eapply Forall_impl; [exact HF|]. intros e He Hek. subst k.
  apply list_elem_of_In in Hk, He. cbn in Hk, He.
  destruct (ekind e); intuition discriminate.
Qed.

(** X12: the manifest reader is a scoped resource.  In every run of
    RunInspect, a reader that the fetch returned is closed, once, by the
    last call of the run, whether reading and parsing fail or not; a run
    in which nothing was fetched closes nothing. *)
Theorem RunInspect_closes_the_reader_it_fetched {W} (h : handler W) w opts :
  omap closedReader (trace_of (run h (RunInspect opts) w)) =
    omap fetchedReader (trace_of (run h (RunInspect opts) w)) /\
  length (omap fetchedReader (trace_of (run h (RunInspect opts) w))) <= 1 /\
  (forall rc,
     rc ∈ omap fetchedReader (trace_of (run h (RunInspect opts) w)) ->
     exists e, last (trace_of (run h (RunInspect opts) w)) = Some e /\
               closedReader e = Some rc).
Proof.
  inspect_cases h Hrk;
    rewrite ?omap_app;
    rewrite ?(omap_none closedReader reportingKinds _ ltac:(other_kind) Hrk),
      ?(omap_none fetchedReader reportingKinds _ ltac:(other_kind) Hrk);
    cbn; (split; [done|]); (split; [lia|]); intros rc' Hin;
    try (by apply elem_of_nil in Hin);
    apply list_elem_of_singleton in Hin as ->;
    (eexists; split;
       [first [reflexivity | rewrite ?app_comm_cons; apply last_snoc]|done]).
Qed.


(** X14: a failing inspect shows nothing.  When RunInspect returns an
    error, nothing was printed for the user and nothing was written to the
    table: the report starts only once the manifest is parsed. *)
Theorem RunInspect_prints_nothing_when_it_fails {W} (h : handler W) w opts err :
  result_of (run h (RunInspect opts) w) = Some err ->
  printed (trace_of (run h (RunInspect opts) w)) = [] /\
  table (trace_of (run h (RunInspect opts) w)) = [] /\
  (KNewWriter ∉ kinds (trace_of (run h (RunInspect opts) w))).
Proof.
  inspect_cases h Hrk; intros Hret; try discriminate Hret;
    (split; [done|]); (split; [done|]);
    apply not_elem_of_kinds; by repeat constructor.
Qed.

Lemma RunInspect_prints_nothing_when_it_fails_witness :
  printed (trace_of
    (run Demo.handle (RunInspect (Demo.inspect "ghcr.io/acme/unknown:v1")) "")) = [] /\
  table (trace_of
    (run Demo.handle (RunInspect (Demo.inspect "ghcr.io/acme/unknown:v1")) "")) = [] /\
  (KNewWriter ∉ kinds (trace_of
    (run Demo.handle (RunInspect (Demo.inspect "ghcr.io/acme/unknown:v1")) ""))).
Proof.
  apply (RunInspect_prints_nothing_when_it_fails Demo.handle ""
           (Demo.inspect "ghcr.io/acme/unknown:v1")
           (Errorf_w ("invalid reference " +:+ "ghcr.io/acme/unknown:v1" +:+ ": ")
              (errorString "invalid reference: missing registry or repository"))).
  reflexivity.
Defined.


Lemma printCreated_valid {W} (h : handler W) manifest created t s w :
  createdAnnotation manifest = Some created ->
  (forall w', (h _ (time_Parse RFC3339 created) w').1 = Ok t) ->
  (forall w', (h _ (Time_Format t RFC3339) w').1 = s) ->
  printed (trace_of (run h (printCreated manifest) w)) =
    ["Created:   " +:+ s +:+ nl].
Proof.
  unfold trace_of, printCreated, createdAnnotation.
  destruct (Annotations (Config manifest)) as [annotations|]; [|done].
  intros -> Hparse Hformat. cbn.
  pose proof (Hparse w) as Hp.
  destruct (h _ (time_Parse RFC3339 created) w) as [r w1]. cbn in Hp. subst r. cbn.
  pose proof (Hformat w1) as Hf.
  destruct (h _ (Time_Format t RFC3339) w1) as [s' w2]. cbn in Hf. subst s'. cbn.
  by destruct (h _ (cli_Printf ("Created:   " +:+ s +:+ nl)) w2) as [[] w3].
Qed.

(** X15: the Created line.  When the config of the parsed manifest has a
    creation timestamp that [time.Parse] accepts, RunInspect prints,
    between the three header lines and the layer section, one Created
    line with that time as [Format] renders it, and returns nil. *)
Theorem RunInspect_prints_the_creation_time
  {W} (h : handler W) w opts e manifest created t s :
  e ∈ trace_of (run h (RunInspect opts) w) ->
  parsedManifest e = Some manifest ->
  createdAnnotation manifest = Some created ->
  (forall w', (h _ (time_Parse RFC3339 created) w').1 = Ok t) ->
  (forall w', (h _ (Time_Format t RFC3339) w').1 = s) ->
  result_of (run h (RunInspect opts) w) = None /\
  exists repo manifestDesc,
    printed (trace_of (run h (RunInspect opts) w)) =
      reportHeader repo manifestDesc ++
      ["Created:   " +:+ s +:+ nl;
       if Nat.eqb (length (Layers manifest)) 0
       then noDefinitionsFound else definitionsHeading].
Proof.
  intros He Hp Hc Hparse Hformat.
  destruct (RunInspect_parsed h opts w e manifest He Hp)
    as (repo & manifestDesc & w1 & pre & post & -> & -> & Hpp & Htp & Hpo & Hto).
  destruct (report_run h repo manifestDesc manifest w1)
    as (Hr & _ & [w' Hpr] & _ & _).
  rewrite (printCreated_valid h manifest created t s w' Hc Hparse Hformat) in Hpr.
  split; [done|]. exists repo, manifestDesc.
  unfold printed in *. by rewrite !omap_app, Hpp, Hpo, Hpr, app_nil_r.
Qed.

Lemma RunInspect_prints_the_creation_time_witness :
  result_of (run Demo.handle (RunInspect (Demo.inspect "ghcr.io/acme/stack:v1")) "")
    = None /\
  exists repo manifestDesc,
    printed (trace_of
      (run Demo.handle (RunInspect (Demo.inspect "ghcr.io/acme/stack:v1")) "")) =
      reportHeader repo manifestDesc ++
      ["Created:   " +:+ "2025-01-02T03:04:05Z" +:+ nl;
       if Nat.eqb (length (Layers Demo.stackManifest)) 0
       then noDefinitionsFound else definitionsHeading].
Proof.
  apply (RunInspect_prints_the_creation_time Demo.handle ""
           (Demo.inspect "ghcr.io/acme/stack:v1")
           (Demo.parsedEntry "ghcr.io/acme/stack:v1" Demo.stackManifest)
           Demo.stackManifest "2025-01-02T03:04:05Z"
           {| unixSec := 1735787045; zoneOffset := 0 |}).
  - apply (list_elem_of_lookup_2 _ 6). reflexivity.
  - reflexivity.
  - reflexivity.
  - intros w'. reflexivity.
  - intros w'. reflexivity.
Defined.

Lemma layerName_titled layer title :
  titleAnnotation layer = Some title -> layerName layer = title.
Proof.
  unfold titleAnnotation, layerName.
  destruct (Annotations layer) as [annotations|]; [|done].
  by intros ->.
Qed.

(** X16: one row per layer.  When the parsed manifest has layers, the
    table that RunInspect writes has the header and then as many rows as
    there are layers, in their order, and the row of a layer with a title
    annotation is that title, a tab and the digest of the layer. *)
Theorem RunInspect_lists_a_titled_layer_by_its_title
  {W} (h : handler W) w opts e manifest (i : nat) layer title :
  e ∈ trace_of (run h (RunInspect opts) w) ->
  parsedManifest e = Some manifest ->
  Layers manifest !! i = Some layer ->
  titleAnnotation layer = Some title ->
  length (table (trace_of (run h (RunInspect opts) w))) =
    S (length (Layers manifest)) /\
  table (trace_of (run h (RunInspect opts) w)) !! 0 = Some tableHeader /\
  table (trace_of (run h (RunInspect opts) w)) !! (S i) =
    Some (title +:+ tab +:+ Digest layer +:+ nl).
Proof.
  intros He Hp Hi Ht.
  destruct (RunInspect_parsed h opts w e manifest He Hp)
    as (repo & manifestDesc & w1 & pre & post & _ & -> & Hpp & Htp & Hpo & Hto).
  destruct (report_run h repo manifestDesc manifest w1)
    as (_ & _ & _ & Htab & _).
  assert (Hne : Nat.eqb (length (Layers manifest)) 0 = false)
    by (by destruct (Layers manifest)).
  rewrite Hne in Htab.
  assert (Htable :
    table (pre ++ trace_of (run h (report repo manifestDesc manifest) w1) ++ post) =
      tableHeader :: (rowOf <$> Layers manifest)).
  { unfold table in *. by rewrite !omap_app, Htp, Hto, Htab, app_nil_r. }
  rewrite Htable. split; [cbn; by rewrite length_fmap|]. split; [done|].
  etrans; [exact (list_lookup_fmap rowOf (Layers manifest) i)|].
  rewrite Hi. cbn. unfold rowOf. by rewrite (layerName_titled layer title Ht).
Qed.

Lemma RunInspect_lists_a_titled_layer_by_its_title_witness :
  length (table (trace_of
    (run Demo.handle (RunInspect (Demo.inspect "ghcr.io/acme/stack:v1")) ""))) =
    S (length (Layers Demo.stackManifest)) /\
  table (trace_of
    (run Demo.handle (RunInspect (Demo.inspect "ghcr.io/acme/stack:v1")) "")) !! 0 =
    Some tableHeader /\
  table (trace_of
    (run Demo.handle (RunInspect (Demo.inspect "ghcr.io/acme/stack:v1")) "")) !! 1 =
    Some ("vpc.yaml" +:+ tab +:+ "sha256:vpc.yaml" +:+ nl).
Proof.
  apply (RunInspect_lists_a_titled_layer_by_its_title Demo.handle ""
           (Demo.inspect "ghcr.io/acme/stack:v1")
           (Demo.parsedEntry "ghcr.io/acme/stack:v1" Demo.stackManifest)
           Demo.stackManifest 0 (Demo.layerOf "vpc.yaml" LayerMediaType) "vpc.yaml").
  - apply (list_elem_of_lookup_2 _ 6). reflexivity.
  - reflexivity.
  - reflexivity.
  - reflexivity.
Defined.

(** ** The commands *)

Lemma ExactArgs_one args :
  ExactArgs 1 args = None <-> exists reference, args = [reference].
Proof.
  unfold ExactArgs. destruct args as [|a [|b rest]]; cbn.
  - split; [done|]. by intros [? ?].
  - split; [by exists a|done].
  - split; [done|]. by intros [? ?].
Qed.

(** X17: the push command never reads a reference that is not there.
    Whenever its check of the positional arguments passes, there is
    exactly one argument, and RunE runs RunPush with that argument as the
    reference and the parsed file names, untouched; with any other number
    of arguments the check fails, with cobra's message and the two
    counts. *)
Theorem push_command_runs_with_its_one_argument fs filenames args :
  match Args (NewPushCommand fs filenames) args with
  | None =>
      exists reference,
        args = [reference] /\
        RunE (NewPushCommand fs filenames) args =
          Some (RunPush fs {| Filenames := filenames; Push_Reference := reference |})
  | Some err =>
      length args <> 1 /\
      Error err = "accepts 1 arg(s), received " +:+ pretty (length args)
  end.
Proof.
  cbn [Args NewPushCommand].
  destruct (ExactArgs 1 args) as [err|] eqn:HA.
  - unfold ExactArgs in HA.
    destruct (Nat.eqb (length args) 1) eqn:Hn; cbn in HA; [done|].
    injection HA as <-. split; [by apply Nat.eqb_neq|done].
  - apply ExactArgs_one in HA as [reference ->]. by exists reference.
Qed.

(** X18: the same for the inspect command: one argument, which RunE
    hands to RunInspect as the reference, or the failed check. *)
Theorem inspect_command_runs_with_its_one_argument args :
  match Args NewInspectCommand args with
  | None =>
      exists reference,
        args = [reference] /\
        RunE NewInspectCommand args =
          Some (RunInspect {| Inspect_Reference := reference |})
  | Some err =>
      length args <> 1 /\
      Error err = "accepts 1 arg(s), received " +:+ pretty (length args)
  end.
Proof.
  cbn [Args NewInspectCommand].
  destruct (ExactArgs 1 args) as [err|] eqn:HA.
  - unfold ExactArgs in HA.
    destruct (Nat.eqb (length args) 1) eqn:Hn; cbn in HA; [done|].
    injection HA as <-. split; [by apply Nat.eqb_neq|done].
  - apply ExactArgs_one in HA as [reference ->]. by exists reference.
Qed.

(** ** Staging, in every run *)

(** X19: staging follows the collected list.  In every run of RunPush
    that created a store, failed or not, the Adds are made for the
    collected files from the first on, in order and without a gap, each
    into that store under the base name of the file and with the layer
    media type; a run that created no store adds nothing. *)
Theorem RunPush_stages_the_collected_files_in_order
  {W} (h : handler W) w fs opts :
  match omap createdStore (trace_of (run h (RunPush fs opts) w)) with
  | [] => omap addCall (trace_of (run h (RunPush fs opts) w)) = []
  | store :: _ =>
      exists allFiles,
        collectFiles fs (Filenames opts) [] = Ok allFiles /\
        omap addCall (trace_of (run h (RunPush fs opts) w))
          `prefix_of` ((fun f => (store, Base f, LayerMediaType, f)) <$> allFiles)
  end.
Proof.
  destruct (RunPush_cases h fs opts w)
    as [(e & -> & _)|[(allFiles & [X [] x] & err & w1 & _ & Hl & ->)|
        (allFiles & logged & store & w1 & staged & w2 & trs & ret & w3 & trp
           & closed & w4 & Hc & Hl & Hs & Hp & ->)]]; try discriminate Hl.
  1-3: done.
  push_parts h Hs Hp Hks Hkp. destruct Hks as (Hks & Hprefix & _).
  unfold trace_of. cbn [snd].
  destruct (RunPush_trace_parts logged store trs trp closed Hl Hks Hkp)
    as (-> & -> & _).
  by exists allFiles.
Qed.
